(** * The YARA wrapper of Spike Guard (src/yara_wrapper.cpp)

    A shallow embedding of [yara::Yara::load_rules], [yara::Yara::scan_bytes],
    [yara::Yara::scan_file] and of the scan callback [yara::get_match_data],
    followed by the properties of the wrapper's contract.

    The matching engine, the file system and the diagnostic streams are
    outside the wrapper.  Every call that leaves the wrapper is a node of an
    action tree ([prog]); a [handler] answers the calls, and [run] executes a
    tree against a handler while logging each call with its answer. *)

From Stdlib Require Import ZArith List String Ascii Strings.Byte Bool Lia.
From Stdlib Require Import HexadecimalString DecimalString.
Import ListNotations.

Local Open Scope string_scope.
Local Open Scope Z_scope.

(** ** The engine's public constants

    The numeric codes come from the engine's headers, which the wrapper only
    includes.  The wrapper never relies on their values, only on the [case]
    labels of one [switch] being pairwise distinct (the program would not
    compile otherwise). *)

Class YaraApi : Type := {
  ERROR_SUCCESS : Z;
  ERROR_INVALID_FILE : Z;
  ERROR_CALLBACK_ERROR : Z;
  CALLBACK_CONTINUE : Z;
  CALLBACK_ERROR : Z;
  CALLBACK_MSG_RULE_MATCHING : Z;
  CALLBACK_MSG_RULE_NOT_MATCHING : Z;
  CALLBACK_MSG_SCAN_FINISHED : Z;
  CALLBACK_MSG_IMPORT_MODULE : Z;
  SCAN_FLAGS_PROCESS_MEMORY : Z;
  case_labels_distinct :
    NoDup [CALLBACK_MSG_RULE_MATCHING; CALLBACK_MSG_RULE_NOT_MATCHING;
           CALLBACK_MSG_IMPORT_MODULE; CALLBACK_MSG_SCAN_FINISHED]
}.

(** ** Data *)

(** A pointer is [NULL] ([None]) or the address of an object. *)
Definition handle := positive.
Definition ptr := option handle.

Definition is_null (p : ptr) : bool :=
  match p with None => true | Some _ => false end.

(** [YR_META]: the sentinel-terminated array [rule->metas] is a list.
    [meta_string] is [meta->string], a [char*] that is null ([None]) for a
    meta whose value is an integer or a boolean. *)
Record YR_META := { identifier : string; meta_string : option string }.

(** [YR_MATCH]: [match_data] holds the [match->length] bytes ([uint8_t])
    that [match->data] points to; the [next] links make a list. *)
Record YR_MATCH := { match_data : list byte }.

Definition match_length (m : YR_MATCH) : Z := Z.of_nat (List.length (match_data m)).

(** [YR_STRING]: one pattern of a rule with its occurrences in the scanned
    input. *)
Record YR_STRING := { g_flags_hex : bool; matches : list YR_MATCH }.

(** Modelled from the spec: the engine macro STRING_IS_HEX, true for a
    "hex/byte pattern" and false for a "textual (non-hex) pattern". *)
Definition STRING_IS_HEX (s : YR_STRING) : bool := g_flags_hex s.

(** Modelled from the spec: the engine macro STRING_MATCHES, the pattern's
    "linked list of match occurrences". *)
Definition STRING_MATCHES (s : YR_STRING) : list YR_MATCH := matches s.

(** Modelled from the spec: the engine macro STRING_FOUND, true for a
    "pattern that had at least one match". *)
Definition STRING_FOUND (s : YR_STRING) : bool :=
  match STRING_MATCHES s with [] => false | _ :: _ => true end.

Record YR_RULE := { metas : list YR_META; strings : list YR_STRING }.

Record YR_MODULE_IMPORT := { module_name : string; module_data : ptr }.

(** What the callback's [void* message_data] points to. *)
Inductive message_data_t : Type :=
| to_rule (rule : YR_RULE)
| to_module_import (mi : YR_MODULE_IMPORT)
| to_nothing.

(** Modelled from the spec: the class Match of yara_wrapper.h, "rule metadata
    (key/value pairs) and a list of matched string excerpts", in insertion
    order. *)
Record Match := { metadata : list (string * string); found_strings : list string }.

Definition new_Match : Match := {| metadata := []; found_strings := [] |}.

(** Modelled from the spec: Match::add_metadata of yara_wrapper.h, "appending
    each identifier->value pair in order". *)
Definition add_metadata (m : Match) (key value : string) : Match :=
  {| metadata := (metadata m ++ [(key, value)])%list; found_strings := found_strings m |}.

(** Modelled from the spec: Match::add_found_string of yara_wrapper.h,
    "append as a found-string excerpt". *)
Definition add_found_string (m : Match) (found : string) : Match :=
  {| metadata := metadata m; found_strings := (found_strings m ++ [found])%list |}.

(** [callback_data]: the result vector and the optional SGPE data. *)
Record callback_data := { yara_matches : list Match; pe_info : ptr }.

(** The fields of a [Yara] object. *)
Record Yara := { _compiler : ptr; _rules : ptr; _current_rules : string }.

(** The fields as the constructor [Yara::Yara] leaves them. *)
Definition Yara_new : Yara :=
  {| _compiler := None; _rules := None; _current_rules := "" |}.

Definition with_compiler (self : Yara) (p : ptr) : Yara :=
  {| _compiler := p; _rules := _rules self; _current_rules := _current_rules self |}.

Definition with_rules (self : Yara) (p : ptr) : Yara :=
  {| _compiler := _compiler self; _rules := p; _current_rules := _current_rules self |}.

Definition with_current_rules (self : Yara) (s : string) : Yara :=
  {| _compiler := _compiler self; _rules := _rules self; _current_rules := s |}.

(** ** Calls that leave the wrapper *)

(** A scan as the engine conducts it: it returns a code, or invokes the
    callback and resumes with the callback's return value and with the
    message data as the callback left it. *)
Inductive session : Type :=
| engine_returns (retval : Z)
| engine_calls_back (message : Z) (message_data : message_data_t)
    (resume : Z -> message_data_t -> session).

(** The external calls, indexed by the type of their answer.  A call that
    takes the address of a field ([&_rules], [&_compiler]) carries the
    field's value and is answered with the value the callee leaves there.
    The two [NULL] arguments of [yr_compiler_add_file], the callback and the
    user data of the scans (always [get_match_data] and [&cb_data]) are left
    out. *)
Variant call : Type -> Type :=
| fs_exists (p : string) : call bool
| yr_rules_load (filename : string) (rules : ptr) : call (Z * ptr)
| yr_compiler_create (compiler : ptr) : call (Z * ptr)
| fopen (filename mode : string) : call ptr
| yr_compiler_add_file (compiler rule_file : ptr) : call Z
| yr_compiler_get_rules (compiler rules : ptr) : call (Z * ptr)
| yr_rules_save (rules : ptr) (filename : string) : call Z
| fclose (rule_file : ptr) : call unit
| yr_compiler_destroy (compiler : ptr) : call unit
| yr_rules_destroy (rules : ptr) : call unit
| PRINT_ERROR (msg : string) : call unit
| PRINT_WARNING (msg : string) : call unit
| yr_rules_scan_mem (rules : ptr) (buffer : list byte) (size flags timeout : Z) : call session
| yr_rules_scan_file (rules : ptr) (filename : string) (flags timeout : Z) : call session.

(** A program: a result, a call with its continuation, or no result at
    all: undefined behaviour or an exception that leaves the wrapper (a cast
    of [message_data] to a structure that is not there, a [std::string]
    built from a null pointer). *)
Inductive prog (A : Type) : Type :=
| Ret (a : A)
| Do {X : Type} (c : call X) (k : X -> prog A)
| Undefined.

Arguments Ret {A} a.
Arguments Do {A X} c k.
Arguments Undefined {A}.

Fixpoint bind {A B : Type} (p : prog A) (f : A -> prog B) : prog B :=
  match p with
  | Ret a => f a
  | Do c k => Do c (fun x => bind (k x) f)
  | Undefined => Undefined
  end.

Definition perform {X : Type} (c : call X) : prog X := Do c Ret.

Declare Scope prog_scope.
Delimit Scope prog_scope with prog.
Bind Scope prog_scope with prog.

Notation "x <- p ;; q" := (bind p (fun x => q))
  (at level 61, p at next level, right associativity) : prog_scope.
Notation "' pat <- p ;; q" := (bind p (fun x => match x with pat => q end))
  (at level 61, pat pattern, p at next level, right associativity) : prog_scope.
Notation "p ;; q" := (bind p (fun _ => q))
  (at level 61, right associativity) : prog_scope.

Local Open Scope prog_scope.

(** One line of the log: a call and its answer.  A scan is logged when it is
    entered. *)
Inductive entry : Type :=
| E_fs_exists (p : string) (answer : bool)
| E_yr_rules_load (filename : string) (rules : ptr) (retval : Z) (rules' : ptr)
| E_yr_compiler_create (compiler : ptr) (retval : Z) (compiler' : ptr)
| E_fopen (filename mode : string) (file : ptr)
| E_yr_compiler_add_file (compiler rule_file : ptr) (retval : Z)
| E_yr_compiler_get_rules (compiler rules : ptr) (retval : Z) (rules' : ptr)
| E_yr_rules_save (rules : ptr) (filename : string) (retval : Z)
| E_fclose (rule_file : ptr)
| E_yr_compiler_destroy (compiler : ptr)
| E_yr_rules_destroy (rules : ptr)
| E_PRINT_ERROR (msg : string)
| E_PRINT_WARNING (msg : string)
| E_yr_rules_scan_mem (rules : ptr) (buffer : list byte) (size flags timeout : Z)
| E_yr_rules_scan_file (rules : ptr) (filename : string) (flags timeout : Z).

Definition describe {X : Type} (c : call X) : X -> entry :=
  match c in call X return X -> entry with
  | fs_exists p => fun answer => E_fs_exists p answer
  | yr_rules_load f r => fun a => E_yr_rules_load f r (fst a) (snd a)
  | yr_compiler_create c => fun a => E_yr_compiler_create c (fst a) (snd a)
  | fopen f m => fun file => E_fopen f m file
  | yr_compiler_add_file c f => fun retval => E_yr_compiler_add_file c f retval
  | yr_compiler_get_rules c r => fun a => E_yr_compiler_get_rules c r (fst a) (snd a)
  | yr_rules_save r f => fun retval => E_yr_rules_save r f retval
  | fclose f => fun _ => E_fclose f
  | yr_compiler_destroy c => fun _ => E_yr_compiler_destroy c
  | yr_rules_destroy r => fun _ => E_yr_rules_destroy r
  | PRINT_ERROR msg => fun _ => E_PRINT_ERROR msg
  | PRINT_WARNING msg => fun _ => E_PRINT_WARNING msg
  | yr_rules_scan_mem r b s f t => fun _ => E_yr_rules_scan_mem r b s f t
  | yr_rules_scan_file r p f t => fun _ => E_yr_rules_scan_file r p f t
  end.

(** The world outside the wrapper: a state [W] and an answer to every call. *)
Definition handler (W : Type) : Type := forall X : Type, call X -> W -> X * W.

(** [run h p w] executes [p] from the world [w]: the result, the final world
    and the log, or [None] on undefined behaviour. *)
Fixpoint run {W A : Type} (h : handler W) (p : prog A) (w : W)
  : option (A * W * list entry) :=
  match p with
  | Ret a => Some (a, w, [])
  | Do c k =>
      let (x, w1) := h _ c w in
      match run h (k x) w1 with
      | Some (a, w2, log) => Some (a, w2, describe c x :: log)
      | None => None
      end
  | Undefined => None
  end.

(** ** Stream output *)

(** [ss << std::hex << n] for an unsigned [n]: lower-case digits, no prefix,
    no padding. *)
Definition show_hex (n : N) : string :=
  HexadecimalString.NilZero.string_of_uint (N.to_hex_uint n).

(** [stream << std::hex << v] for an [int]: the digits of its 32-bit
    two's complement. *)
Definition show_hex_int (v : Z) : string := show_hex (Z.to_N (v mod 2 ^ 32)).

(** [stream << v] for an [int] in decimal. *)
Definition show_dec_int (v : Z) : string :=
  DecimalString.NilZero.string_of_int (Z.to_int v).

(** [s.erase(std::remove(s.begin(), s.end(), c), s.end())]. *)
Fixpoint erase_remove (c : ascii) (s : string) : string :=
  match s with
  | EmptyString => EmptyString
  | String a rest =>
      if Ascii.eqb a c then erase_remove c rest else String a (erase_remove c rest)
  end.

(** ** The wrapper *)

Section Wrapper.

Context {api : YaraApi}.

(** [Yara::_clean_compiler_and_rules]: the handles are destroyed, the fields
    keep their values. *)
Definition _clean_compiler_and_rules (self : Yara) : prog unit :=
  (if negb (is_null (_compiler self))
   then perform (yr_compiler_destroy (_compiler self)) else Ret tt) ;;
  (if negb (is_null (_rules self))
   then perform (yr_rules_destroy (_rules self)) else Ret tt).

(** The label [END] of [Yara::load_rules]. *)
Definition END (res : bool) (self : Yara) (rule_file : ptr) : prog (bool * Yara) :=
  (if negb (is_null rule_file) then perform (fclose rule_file) else Ret tt) ;;
  Ret (res, self).

(** [Yara::load_rules]: the result and the object's fields on return. *)
Definition load_rules (self : Yara) (rule_filename : string) : prog (bool * Yara) :=
  if (_current_rules self =? rule_filename)%string then Ret (true, self)
  else
    _clean_compiler_and_rules self ;;
    let res := false in
    compiled <- perform (fs_exists (rule_filename ++ "c")) ;;
    a <- (if compiled : bool
          then perform (yr_rules_load (rule_filename ++ "c") (_rules self))
          else perform (yr_rules_load rule_filename (_rules self))) ;;
    let retval := fst a in
    let self := with_rules self (snd a) in
    if negb (retval =? ERROR_SUCCESS) && negb (retval =? ERROR_INVALID_FILE) then
      perform (PRINT_ERROR
        ("Could not load yara rules. (Yara Error 0x" ++ show_hex_int retval ++ ")")) ;;
      Ret (false, self)
    else if retval =? ERROR_SUCCESS then Ret (true, self)
    else if retval =? ERROR_INVALID_FILE then
      a <- perform (yr_compiler_create (_compiler self)) ;;
      let self := with_compiler self (snd a) in
      if negb (fst a =? ERROR_SUCCESS) then Ret (false, self)
      else
        rule_file <- perform (fopen rule_filename "r") ;;
        if is_null rule_file then Ret (false, self)
        else
          retval <- perform (yr_compiler_add_file (_compiler self) rule_file) ;;
          if negb (retval =? ERROR_SUCCESS) then
            perform (PRINT_ERROR "Could not compile yara rules.") ;;
            END res self rule_file
          else
            a <- perform (yr_compiler_get_rules (_compiler self) (_rules self)) ;;
            let retval := fst a in
            let self := with_rules self (snd a) in
            if negb (retval =? ERROR_SUCCESS) then END res self rule_file
            else
              retval <- perform (yr_rules_save (_rules self) (rule_filename ++ "c")) ;;
              if negb (retval =? ERROR_SUCCESS) then END res self rule_file
              else
                let res := true in
                let self := with_current_rules self rule_filename in
                END res self rule_file
    else Ret (res, self).

(** The excerpt of a match of a textual pattern. *)
Definition text_excerpt (mt : YR_MATCH) : string :=
  let found := string_of_list_byte (match_data mt) in
  erase_remove Ascii.zero found.

(** The excerpt of a match of a hex pattern: the [for] loop over
    [i < min(20, match->length)], then the marker. *)
Definition hex_excerpt (mt : YR_MATCH) : string :=
  let ss :=
    fold_left
      (fun ss i => ss ++ show_hex (Byte.to_N (nth i (match_data mt) x00)) ++ " ")
      (seq 0 (Z.to_nat (Z.min 20 (match_length mt)))) "" in
  if 20 <? match_length mt then ss ++ "..." else ss.

(** [while (!META_IS_NULL(meta))].  [add_metadata] takes strings: for a meta
    whose [meta->string] is null the conversion to [std::string] throws, and
    the walk has no result ([None]). *)
Fixpoint walk_metas (meta : list YR_META) (m : Match) : option Match :=
  match meta with
  | [] => Some m
  | mt :: rest =>
      match meta_string mt with
      | Some value => walk_metas rest (add_metadata m (identifier mt) value)
      | None => None
      end
  end.

(** [while (match != NULL)]. *)
Fixpoint walk_matches (s : YR_STRING) (occ : list YR_MATCH) (m : Match) : Match :=
  match occ with
  | [] => m
  | mt :: next =>
      let m :=
        if negb (STRING_IS_HEX s) then add_found_string m (text_excerpt mt)
        else add_found_string m (hex_excerpt mt) in
      walk_matches s next m
  end.

(** [while (!STRING_IS_NULL(s))]. *)
Fixpoint walk_strings (ss : list YR_STRING) (m : Match) : Match :=
  match ss with
  | [] => m
  | s :: rest =>
      let m := if STRING_FOUND s then walk_matches s (STRING_MATCHES s) m else m in
      walk_strings rest m
  end.

(** [get_match_data]: the return value, the message data and the callback
    data as the callback leaves them ([data] is [None] for a null pointer). *)
Definition get_match_data (message : Z) (message_data : message_data_t)
    (data : option callback_data)
  : prog (Z * message_data_t * option callback_data) :=
  match data with
  | None =>
      perform (PRINT_ERROR "Yara wrapper callback called with no data!") ;;
      Ret (ERROR_CALLBACK_ERROR, message_data, data)
  | Some cb_data =>
      if message =? CALLBACK_MSG_RULE_MATCHING then
        match message_data with
        | to_rule rule =>
            let target := yara_matches cb_data in
            let m := new_Match in
            match walk_metas (metas rule) m with
            | Some m =>
                let m := walk_strings (strings rule) m in
                let target := (target ++ [m])%list in
                Ret (CALLBACK_CONTINUE, message_data,
                     Some {| yara_matches := target; pe_info := pe_info cb_data |})
            | None => Undefined
            end
        | _ => Undefined
        end
      else if message =? CALLBACK_MSG_RULE_NOT_MATCHING then
        Ret (CALLBACK_CONTINUE, message_data, data)
      else if message =? CALLBACK_MSG_IMPORT_MODULE then
        match message_data with
        | to_module_import mi =>
            if (module_name mi =? "sgpe")%string then
              if is_null (pe_info cb_data) then
                perform (PRINT_ERROR
                  "Yara rule imports the SGPE module, but no SGPE data was given!") ;;
                Ret (ERROR_CALLBACK_ERROR, message_data, data)
              else
                let mi := {| module_name := module_name mi;
                             module_data := pe_info cb_data |} in
                Ret (ERROR_SUCCESS, to_module_import mi, data)
            else Ret (ERROR_SUCCESS, message_data, data)
        | _ => Undefined
        end
      else if message =? CALLBACK_MSG_SCAN_FINISHED then
        Ret (ERROR_SUCCESS, message_data, data)
      else
        perform (PRINT_WARNING
          ("Yara callback received an unhandled message ("
             ++ show_dec_int message ++ ").")) ;;
        Ret (ERROR_SUCCESS, message_data, data)
  end.

(** The engine conducting a scan with [get_match_data] as callback and
    [&cb_data] as user data. *)
Fixpoint conduct (s : session) (cb_data : callback_data) : prog (Z * callback_data) :=
  match s with
  | engine_returns retval => Ret (retval, cb_data)
  | engine_calls_back message message_data resume =>
      a <- get_match_data message message_data (Some cb_data) ;;
      let cb_data := match snd a with Some d => d | None => cb_data end in
      conduct (resume (fst (fst a)) (snd (fst a))) cb_data
  end.

Definition clear (cb_data : callback_data) : callback_data :=
  {| yara_matches := []; pe_info := pe_info cb_data |}.

(** [Yara::scan_bytes]. *)
Definition scan_bytes (self : Yara) (bytes : list byte) : prog (list Match) :=
  let cb_data := {| yara_matches := []; pe_info := None |} in
  let size := Z.of_nat (List.length bytes) in
  if is_null (_rules self) || (size =? 0) then
    (if is_null (_rules self)
     then perform (PRINT_ERROR "No Yara rules loaded!") else Ret tt) ;;
    Ret (yara_matches cb_data)
  else
    let copy := bytes in
    s <- perform (yr_rules_scan_mem (_rules self) copy size SCAN_FLAGS_PROCESS_MEMORY 0) ;;
    a <- conduct s cb_data ;;
    let retval := fst a in
    let cb_data := snd a in
    if negb (retval =? ERROR_SUCCESS) then
      perform (PRINT_ERROR ("Yara error code = 0x" ++ show_hex_int retval)) ;;
      Ret (yara_matches (clear cb_data))
    else Ret (yara_matches cb_data).

(** [Yara::scan_file]. *)
Definition scan_file (self : Yara) (path : string) (pe_data : ptr) : prog (list Match) :=
  let cb_data := {| yara_matches := []; pe_info := pe_data |} in
  if is_null (_rules self) then
    perform (PRINT_ERROR "No Yara rules loaded!") ;;
    Ret (yara_matches cb_data)
  else
    s <- perform (yr_rules_scan_file (_rules self) path SCAN_FLAGS_PROCESS_MEMORY 0) ;;
    a <- conduct s cb_data ;;
    let retval := fst a in
    let cb_data := snd a in
    if negb (retval =? ERROR_SUCCESS) then
      perform (PRINT_ERROR ("Yara error code: 0x" ++ show_hex_int retval)) ;;
      Ret (yara_matches (clear cb_data))
    else Ret (yara_matches cb_data).

End Wrapper.

(** ** Reading runs *)

(** The excerpt the callback appends for one occurrence. *)
Definition excerpt_of (o : YR_STRING * YR_MATCH) : string :=
  if negb (STRING_IS_HEX (fst o)) then text_excerpt (snd o) else hex_excerpt (snd o).

(** What [_clean_compiler_and_rules] logs: one destruction per field that is
    not null. *)
Definition cleanup_log (self : Yara) : list entry :=
  ((if negb (is_null (_compiler self))
    then [E_yr_compiler_destroy (_compiler self)] else [])
   ++ (if negb (is_null (_rules self))
       then [E_yr_rules_destroy (_rules self)] else []))%list.

(** What the engine's scan call [c], made in the world [w] with [cb_data] as
    user data, hands back: its return code and the callback data as the
    callback invocations left it. *)
Definition engine_outcome {api : YaraApi} {W : Type} (h : handler W)
    (c : call session) (cb_data : callback_data) (w : W)
  : option (Z * callback_data) :=
  let (s, w1) := h _ c w in
  match run h (conduct s cb_data) w1 with
  | Some (a, _, _) => Some a
  | None => None
  end.

Arguments show_hex_int : simpl never.
Arguments show_dec_int : simpl never.

(** ** Excerpts as the specification words them *)

(** Whether every meta of the rule has a string ([meta->string] not null). *)
Definition metas_have_strings (rule : YR_RULE) : bool :=
  forallb (fun x => match meta_string x with Some _ => true | None => false end)
    (metas rule).

(** The pattern occurrences a rule-matched event reports: every pattern of
    the rule, in order, with each of its matches, in order. *)
Definition occurrences (rule : YR_RULE) : list (YR_STRING * YR_MATCH) :=
  flat_map (fun s => map (pair s) (STRING_MATCHES s)) (strings rule).

Definition join (parts : list string) : string := fold_right append "" parts.

Definition hex_digit (d : N) : ascii :=
  nth (N.to_nat d) (list_ascii_of_string "0123456789abcdef") "0"%char.

(** A byte as a "two-digit hexadecimal value". *)
Definition two_digit_hex (b : byte) : string :=
  String (hex_digit (Byte.to_N b / 16)) (String (hex_digit (Byte.to_N b mod 16)) "").

(** A byte as its hexadecimal value without padding: one digit below 16. *)
Definition unpadded_hex (b : byte) : string :=
  if (Byte.to_N b <? 16)%N then String (hex_digit (Byte.to_N b)) "" else two_digit_hex b.

Definition truncation_marker (data : list byte) : string :=
  if (20 <? List.length data)%nat then "..." else "".

(** The hex preview in the specification's words: the first 20 bytes, two
    digits each, then the marker when more than 20 bytes matched. *)
Definition spec_hex_excerpt (data : list byte) : string :=
  join (map (fun b => two_digit_hex b ++ " ") (firstn 20 data)) ++ truncation_marker data.

(** The same preview with unpadded values. *)
Definition unpadded_hex_excerpt (data : list byte) : string :=
  join (map (fun b => unpadded_hex b ++ " ") (firstn 20 data)) ++ truncation_marker data.

(** The matched bytes as text with the null bytes removed. *)
Definition spec_text_excerpt (data : list byte) : string :=
  string_of_list_byte (filter (fun b => negb (Byte.eqb b x00)) data).

(** ** A concrete engine

    The codes of the engine's headers (yara/error.h, yara/rules.h), and a
    world without state that answers every call from a table. *)

Definition yara_h : YaraApi :=
  {| ERROR_SUCCESS := 0;
     ERROR_INVALID_FILE := 6;
     ERROR_CALLBACK_ERROR := 28;
     CALLBACK_CONTINUE := 0;
     CALLBACK_ERROR := 2;
     CALLBACK_MSG_RULE_MATCHING := 1;
     CALLBACK_MSG_RULE_NOT_MATCHING := 2;
     CALLBACK_MSG_SCAN_FINISHED := 3;
     CALLBACK_MSG_IMPORT_MODULE := 4;
     SCAN_FLAGS_PROCESS_MEMORY := 2;
     case_labels_distinct :=
       ltac:(repeat constructor; simpl; intuition discriminate) |}.

Record script := {
  on_exists : string -> bool;
  on_rules_load : string -> ptr -> Z * ptr;
  on_compiler_create : ptr -> Z * ptr;
  on_fopen : string -> ptr;
  on_add_file : Z;
  on_get_rules : ptr -> Z * ptr;
  on_rules_save : string -> Z;
  on_scan : session
}.

Definition play (s : script) : handler unit :=
  fun X c w =>
    (match c in call X return X with
     | fs_exists p => on_exists s p
     | yr_rules_load f r => on_rules_load s f r
     | yr_compiler_create c => on_compiler_create s c
     | fopen f _ => on_fopen s f
     | yr_compiler_add_file _ _ => on_add_file s
     | yr_compiler_get_rules _ r => on_get_rules s r
     | yr_rules_save _ f => on_rules_save s f
     | fclose _ => tt
     | yr_compiler_destroy _ => tt
     | yr_rules_destroy _ => tt
     | PRINT_ERROR _ => tt
     | PRINT_WARNING _ => tt
     | yr_rules_scan_mem _ _ _ _ _ => on_scan s
     | yr_rules_scan_file _ _ _ _ => on_scan s
     end, w).

(** A rule with one hex pattern that matched the single byte 0x0a. *)
Definition rule_hex_0a : YR_RULE :=
  {| metas := [];
     strings := [ {| g_flags_hex := true; matches := [ {| match_data := [x0a] |} ] |} ] |}.

(** A rule with one hex pattern that matched 21 bytes. *)
Definition rule_hex_21 : YR_RULE :=
  {| metas := [];
     strings := [ {| g_flags_hex := true;
                     matches := [ {| match_data := repeat xff 21 |} ] |} ] |}.

(** A rule with one textual pattern that matched "h\0i\0". *)
Definition rule_wide_hi : YR_RULE :=
  {| metas := [ {| identifier := "description"; meta_string := Some "wide hi" |} ];
     strings := [ {| g_flags_hex := false;
                     matches := [ {| match_data := [x68; x00; x69; x00] |} ] |} ] |}.

(** A rule with an integer meta ([meta->string] is null) and one textual
    pattern that matched "hi". *)
Definition rule_with_integer_meta : YR_RULE :=
  {| metas := [ {| identifier := "weight"; meta_string := None |} ];
     strings := [ {| g_flags_hex := false;
                     matches := [ {| match_data := [x68; x69] |} ] |} ] |}.

Definition no_matches_yet : callback_data := {| yara_matches := []; pe_info := None |}.

(** A rule with one textual pattern that matched "hi". *)
Definition rule_hi : YR_RULE :=
  {| metas := [];
     strings := [ {| g_flags_hex := false;
                     matches := [ {| match_data := [x68; x69] |} ] |} ] |}.

(** A world where a precompiled artifact exists next to every rule file and
    loads: [yr_rules_load] answers ERROR_SUCCESS and hands out the rule set
    at address 1. *)
Definition precompiled_world : script :=
  {| on_exists := fun _ => true;
     on_rules_load := fun _ _ => (0, Some 1%positive);
     on_compiler_create := fun _ => (0, Some 2%positive);
     on_fopen := fun _ => Some 3%positive;
     on_add_file := 0;
     on_get_rules := fun _ => (0, Some 4%positive);
     on_rules_save := fun _ => 0;
     on_scan := engine_returns 0 |}.

(** The scanner after [load_rules "rules.yara"] loaded the artifact in
    [precompiled_world]. *)
Definition Yara_loaded : Yara :=
  {| _compiler := None; _rules := Some 1%positive; _current_rules := "" |}.

(** The log of that direct load when [_rules] held [rules0] before. *)
Definition direct_load_log (rules0 : ptr) : list entry :=
  [E_fs_exists "rules.yarac" true;
   E_yr_rules_load "rules.yarac" rules0 0 (Some 1%positive)].

(** A world with rule sources only: "a.yara" is not a compiled artifact
    (ERROR_INVALID_FILE) and compiles, any other file cannot be opened by
    [yr_rules_load] (ERROR_COULD_NOT_OPEN_FILE, 3), and saving an artifact
    answers [save_code].  A scan reports one matching rule and then fails
    with ERROR_SCAN_TIMEOUT (26). *)
Definition source_world (save_code : Z) : script :=
  {| on_exists := fun _ => false;
     on_rules_load := fun f r => if (f =? "a.yara")%string then (6, r) else (3, r);
     on_compiler_create := fun _ => (0, Some 2%positive);
     on_fopen := fun _ => Some 3%positive;
     on_add_file := 0;
     on_get_rules := fun _ => (0, Some 4%positive);
     on_rules_save := fun _ => save_code;
     on_scan := engine_calls_back 1 (to_rule rule_hi) (fun _ _ => engine_returns 26) |}.

(** The scanner after [load_rules "a.yara"] compiled the rules in
    [source_world 0]. *)
Definition Yara_a : Yara :=
  {| _compiler := Some 2%positive; _rules := Some 4%positive; _current_rules := "a.yara" |}.

(** The log of [load_rules "a.yara"] on a fresh scanner in
    [source_world save_code]. *)
Definition compile_a_log (save_code : Z) : list entry :=
  [E_fs_exists "a.yarac" false;
   E_yr_rules_load "a.yara" None 6 None;
   E_yr_compiler_create None 0 (Some 2%positive);
   E_fopen "a.yara" "r" (Some 3%positive);
   E_yr_compiler_add_file (Some 2%positive) (Some 3%positive) 0;
   E_yr_compiler_get_rules (Some 2%positive) None 0 (Some 4%positive);
   E_yr_rules_save (Some 4%positive) "a.yarac" save_code;
   E_fclose (Some 3%positive)].

(** The log of [load_rules "b.yara"] on [Yara_a] in [source_world 0], after
    the two destructions. *)
Definition failed_b_log : list entry :=
  [E_fs_exists "b.yarac" false;
   E_yr_rules_load "b.yara" (Some 4%positive) 3 (Some 4%positive);
   E_PRINT_ERROR "Could not load yara rules. (Yara Error 0x3)"].

(** The scanner after [load_rules "a.yara"] failed to save the artifact in
    [source_world 3]. *)
Definition Yara_unsaved : Yara :=
  {| _compiler := Some 2%positive; _rules := Some 4%positive; _current_rules := "" |}.

(** A world like [precompiled_world] where a scan reports two matching
    rules, [rule_hi] and [rule_wide_hi], and succeeds. *)
Definition matching_world : script :=
  {| on_exists := fun _ => true;
     on_rules_load := fun _ _ => (0, Some 1%positive);
     on_compiler_create := fun _ => (0, Some 2%positive);
     on_fopen := fun _ => Some 3%positive;
     on_add_file := 0;
     on_get_rules := fun _ => (0, Some 4%positive);
     on_rules_save := fun _ => 0;
     on_scan :=
       engine_calls_back 1 (to_rule rule_hi)
         (fun _ _ =>
            engine_calls_back 1 (to_rule rule_wide_hi) (fun _ _ => engine_returns 0)) |}.

(** The two matches that scan accumulates. *)
Definition two_matches : list Match :=
  [ {| metadata := []; found_strings := ["hi"] |};
    {| metadata := [("description", "wide hi")]; found_strings := ["hi"] |} ].

(** ** The scanner's lifetime *)

(** The engine's two global calls; they take no argument and the wrapper
    reads no answer from them. *)
Variant global_call : Type := yr_initialize | yr_finalize.

(** [Yara::Yara] with the static [_instance_count] passed in and out: the
    fields of the new object, the count and the global calls made.  The
    count is an [int]; the model is the code's as long as fewer than 2^31
    instances are alive. *)
Definition Yara_ctor (_instance_count : Z) : Yara * Z * list global_call :=
  let self := Yara_new in
  let calls := if _instance_count =? 0 then [yr_initialize] else [] in
  (self, _instance_count + 1, calls).

(** [Yara::~Yara]: the clean-up, then the count and the global calls made. *)
Definition Yara_dtor (self : Yara) (_instance_count : Z) : prog (Z * list global_call) :=
  _clean_compiler_and_rules self ;;
  let _instance_count := _instance_count - 1 in
  Ret (_instance_count, if _instance_count =? 0 then [yr_finalize] else []).

(** A program that constructs fresh scanners and destroys scanners. *)
Inductive lifetime_step : Type :=
| construct
| destroy (self : Yara).

(** The steps in order: the final count and all global calls made. *)
Fixpoint lifetimes (steps : list lifetime_step) (_instance_count : Z)
  : prog (Z * list global_call) :=
  match steps with
  | [] => Ret (_instance_count, [])
  | construct :: rest =>
      let c := Yara_ctor _instance_count in
      a <- lifetimes rest (snd (fst c)) ;;
      Ret (fst a, (snd c ++ snd a)%list)
  | destroy self :: rest =>
      d <- Yara_dtor self _instance_count ;;
      a <- lifetimes rest (fst d) ;;
      Ret (fst a, (snd d ++ snd a)%list)
  end.

(** No step destroys a scanner when [live] of them are alive and none is
    left. *)
Fixpoint well_nested (steps : list lifetime_step) (live : Z) : bool :=
  match steps with
  | [] => true
  | construct :: rest => well_nested rest (live + 1)
  | destroy _ :: rest => (0 <? live) && well_nested rest (live - 1)
  end.

(** By how much the steps change the number of live scanners. *)
Fixpoint live_change (steps : list lifetime_step) : Z :=
  match steps with
  | [] => 0
  | construct :: rest => 1 + live_change rest
  | destroy _ :: rest => live_change rest - 1
  end.

(** The global calls alternate, starting from an engine that is initialised
    or not ([up]). *)
Fixpoint alternate (up : bool) (calls : list global_call) : bool :=
  match calls with
  | [] => true
  | yr_initialize :: rest => negb up && alternate true rest
  | yr_finalize :: rest => up && alternate false rest
  end.

(** Whether the engine is initialised after the calls. *)
Definition engine_up (up : bool) (calls : list global_call) : bool :=
  fold_left
    (fun _ c => match c with yr_initialize => true | yr_finalize => false end)
    calls up.

(** ** Reading scans and excerpts *)

(** The [Match] a rule-matched event builds for a rule, when every meta of
    the rule has a string. *)
Definition Match_of_rule (rule : YR_RULE) : option Match :=
  match walk_metas (metas rule) new_Match with
  | Some m => Some (walk_strings (strings rule) m)
  | None => None
  end.

(** The callback invocations the engine makes in a scan it conducts from
    the world [w] with [cb_data] as user data: each is answered by
    [get_match_data], and the engine resumes with that answer. *)
Inductive callbacks {api : YaraApi} {W : Type} (h : handler W)
  : session -> callback_data -> W -> list (Z * message_data_t) -> Prop :=
| callbacks_none (retval : Z) (cb_data : callback_data) (w : W) :
    callbacks h (engine_returns retval) cb_data w []
| callbacks_next (message : Z) (message_data : message_data_t)
    (resume : Z -> message_data_t -> session) (cb_data : callback_data) (w w1 : W)
    (code : Z) (left : message_data_t) (data : option callback_data)
    (log : list entry) (later : list (Z * message_data_t)) :
    run h (get_match_data message message_data (Some cb_data)) w
    = Some ((code, left, data), w1, log) ->
    callbacks h (resume code left)
      (match data with Some d => d | None => cb_data end) w1 later ->
    callbacks h (engine_calls_back message message_data resume) cb_data w
      ((message, message_data) :: later).

(** The rules of the rule-matched events among callback invocations. *)
Definition matched_rules {api : YaraApi} (invocations : list (Z * message_data_t))
  : list YR_RULE :=
  flat_map
    (fun e =>
       match snd e with
       | to_rule rule => if fst e =? CALLBACK_MSG_RULE_MATCHING then [rule] else []
       | _ => []
       end)
    invocations.

(** A log line written by a diagnostic stream. *)
Definition is_diagnostic (e : entry) : Prop :=
  exists msg : string, e = E_PRINT_ERROR msg \/ e = E_PRINT_WARNING msg.

(** The value of a lower-case hexadecimal digit. *)
Definition hex_digit_value (c : ascii) : option N :=
  let n := N_of_ascii c in
  if ((48 <=? n) && (n <=? 57))%N then Some (n - 48)%N
  else if ((97 <=? n) && (n <=? 102))%N then Some (n - 87)%N
  else None.

(** Reading a hex preview back: values up to each space, until the end or
    the marker. *)
Fixpoint read_hex_excerpt (value : option N) (s : string) : option (list byte) :=
  match s with
  | EmptyString => match value with None => Some [] | Some _ => None end
  | String c rest =>
      if Ascii.eqb c " " then
        match value with
        | Some n =>
            match Byte.of_N n with
            | Some b => option_map (cons b) (read_hex_excerpt None rest)
            | None => None
            end
        | None => None
        end
      else if Ascii.eqb c "." then
        match value with None => Some [] | Some _ => None end
      else
        match hex_digit_value c with
        | Some d =>
            read_hex_excerpt
              (Some (16 * match value with Some n => n | None => 0 end + d)%N) rest
        | None => None
        end
  end.

(** * Properties *)

(** ** Strings *)

Lemma append_assoc (a b c : string) : ((a ++ b) ++ c)%string = (a ++ (b ++ c))%string.
Proof. induction a as [|x a IH]; simpl; [reflexivity | now rewrite IH]. Qed.

Lemma append_empty_r (a : string) : (a ++ "")%string = a.
Proof. induction a as [|x a IH]; simpl; [reflexivity | now rewrite IH]. Qed.

Lemma null_byte_is_null_char (b : byte) :
  Ascii.eqb (ascii_of_byte b) Ascii.zero = Byte.eqb b x00.
Proof. destruct b; reflexivity. Qed.

Lemma erase_remove_filter (l : list byte) :
  erase_remove Ascii.zero (string_of_list_byte l) = spec_text_excerpt l.
Proof.
  unfold spec_text_excerpt.
  induction l as [|b l IH]; [reflexivity|].
  change (string_of_list_byte (b :: l))
    with (String (ascii_of_byte b) (string_of_list_byte l)).
  simpl erase_remove. simpl filter.
  rewrite null_byte_is_null_char, IH.
  destruct (Byte.eqb b x00); reflexivity.
Qed.

Lemma erase_remove_absent (c : ascii) (s : string) :
  ~ In c (list_ascii_of_string (erase_remove c s)).
Proof.
  induction s as [|a s IH]; simpl; [tauto|].
  destruct (Ascii.eqb_spec a c) as [->|Hne]; [exact IH|].
  simpl. intros [Heq|Hin]; [exact (Hne Heq) | exact (IH Hin)].
Qed.

Lemma show_hex_byte (b : byte) : show_hex (Byte.to_N b) = unpadded_hex b.
Proof. destruct b; reflexivity. Qed.

(** ** The loops of the callback *)

Section Loops.

Context {api : YaraApi}.

Lemma walk_matches_found (s : YR_STRING) (occ : list YR_MATCH) (m : Match) :
  found_strings (walk_matches s occ m)
  = (found_strings m ++ map (fun mt => excerpt_of (s, mt)) occ)%list.
Proof.
  revert m. induction occ as [|mt next IH]; intro m; simpl.
  - now rewrite app_nil_r.
  - rewrite IH. unfold excerpt_of at 2. simpl fst; simpl snd.
    destruct (negb (STRING_IS_HEX s)); simpl; now rewrite <- app_assoc.
Qed.

Lemma walk_matches_metadata (s : YR_STRING) (occ : list YR_MATCH) (m : Match) :
  metadata (walk_matches s occ m) = metadata m.
Proof.
  revert m. induction occ as [|mt next IH]; intro m; simpl; [reflexivity|].
  rewrite IH. now destruct (negb (STRING_IS_HEX s)).
Qed.

Lemma walk_strings_found (ss : list YR_STRING) (m : Match) :
  found_strings (walk_strings ss m)
  = (found_strings m
     ++ map excerpt_of (flat_map (fun s => map (pair s) (STRING_MATCHES s)) ss))%list.
Proof.
  revert m. induction ss as [|s rest IH]; intro m; simpl.
  - now rewrite app_nil_r.
  - rewrite IH, map_app, app_assoc. f_equal.
    unfold STRING_FOUND. destruct (STRING_MATCHES s) as [|mt occ] eqn:E.
    + simpl. now rewrite app_nil_r.
    + rewrite walk_matches_found, map_map. reflexivity.
Qed.

Lemma walk_metas_found (ms : list YR_META) (m m' : Match) :
  walk_metas ms m = Some m' -> found_strings m' = found_strings m.
Proof.
  revert m. induction ms as [|x ms IH]; intros m H; simpl in H.
  - now injection H as <-.
  - destruct (meta_string x) as [value|]; [|discriminate H].
    now rewrite (IH _ H).
Qed.

Lemma walk_metas_returns (ms : list YR_META) (m : Match) :
  forallb (fun x => match meta_string x with Some _ => true | None => false end) ms
  = true ->
  exists m' : Match, walk_metas ms m = Some m'.
Proof.
  revert m. induction ms as [|x ms IH]; intros m H; simpl in *.
  - now exists m.
  - destruct (meta_string x) as [value|]; [|discriminate H]. now apply IH.
Qed.

Lemma walk_metas_throws (ms : list YR_META) (m : Match) :
  forallb (fun x => match meta_string x with Some _ => true | None => false end) ms
  = false ->
  walk_metas ms m = None.
Proof.
  revert m. induction ms as [|x ms IH]; intros m H; simpl in *.
  - discriminate H.
  - destruct (meta_string x) as [value|]; [now apply IH | reflexivity].
Qed.

(** A rule-matched event for a rule whose metas all have strings appends one
    [Match] whose found strings are the excerpts of the rule's occurrences,
    in order, and lets the scan go on; for a rule with a meta without string
    the callback has no result. *)
Lemma rule_matching_event (rule : YR_RULE) (cb_data : callback_data) :
  (metas_have_strings rule = true ->
   exists m : Match,
     get_match_data CALLBACK_MSG_RULE_MATCHING (to_rule rule) (Some cb_data)
     = Ret (CALLBACK_CONTINUE, to_rule rule,
            Some {| yara_matches := (yara_matches cb_data ++ [m])%list;
                    pe_info := pe_info cb_data |})
     /\ found_strings m = map excerpt_of (occurrences rule))
  /\ (metas_have_strings rule = false ->
      get_match_data CALLBACK_MSG_RULE_MATCHING (to_rule rule) (Some cb_data)
      = Undefined).
Proof.
  unfold get_match_data, metas_have_strings. rewrite Z.eqb_refl. split; intro H.
  - destruct (walk_metas_returns (metas rule) new_Match H) as [m0 Hm0].
    rewrite Hm0. exists (walk_strings (strings rule) m0). split; [reflexivity|].
    now rewrite walk_strings_found, (walk_metas_found _ _ _ Hm0).
  - now rewrite (walk_metas_throws (metas rule) new_Match H).
Qed.

Lemma hex_loop (f : byte -> string) (d : byte) (n : nat) :
  forall (pre l : list byte) (acc : string),
    (n <= List.length l)%nat ->
    fold_left (fun ss i => (ss ++ f (nth i (pre ++ l)%list d))%string)
      (seq (List.length pre) n) acc
    = (acc ++ join (map f (firstn n l)))%string.
Proof.
  induction n as [|n IH]; intros pre l acc Hn; simpl.
  - now rewrite append_empty_r.
  - destruct l as [|b l]; [simpl in Hn; lia|].
    simpl in Hn. rewrite nth_middle.
    replace (pre ++ b :: l)%list with ((pre ++ [b]) ++ l)%list
      by now rewrite <- app_assoc.
    replace (S (List.length pre)) with (List.length (pre ++ [b])%list)
      by (rewrite length_app; simpl; lia).
    rewrite IH by lia. simpl. now rewrite append_assoc.
Qed.

Lemma hex_excerpt_unpadded (mt : YR_MATCH) :
  hex_excerpt mt = unpadded_hex_excerpt (match_data mt).
Proof.
  unfold hex_excerpt, unpadded_hex_excerpt, truncation_marker, match_length.
  set (l := match_data mt).
  assert (Hmin : Z.to_nat (Z.min 20 (Z.of_nat (List.length l)))
                 = Nat.min 20 (List.length l)) by lia.
  rewrite Hmin.
  assert (Hloop :
    fold_left (fun ss i => (ss ++ show_hex (Byte.to_N (nth i l x00)) ++ " ")%string)
      (seq 0 (Nat.min 20 (List.length l))) ""%string
    = join (map (fun b => (unpadded_hex b ++ " ")%string) (firstn 20 l))).
  { pose proof (hex_loop (fun b => (show_hex (Byte.to_N b) ++ " ")%string) x00
                  (Nat.min 20 (List.length l)) [] l ""%string) as H.
    cbn [app List.length append] in H. rewrite H by lia. clear H.
    f_equal.
    replace (firstn (Nat.min 20 (List.length l)) l) with (firstn 20 l).
    - apply map_ext. intro b. now rewrite show_hex_byte.
    - destruct (Nat.le_ge_cases 20 (List.length l)) as [Hle|Hge].
      + now rewrite Nat.min_l.
      + rewrite Nat.min_r by lia. now rewrite !firstn_all2 by lia. }
  rewrite Hloop.
  destruct (Z.ltb_spec 20 (Z.of_nat (List.length l)));
    destruct (Nat.ltb_spec 20 (List.length l)); try lia;
    [reflexivity | now rewrite append_empty_r].
Qed.

End Loops.

Lemma Forall2_map_same {A B : Type} (P : A -> B -> Prop) (f : A -> B) (l : list A) :
  (forall x, P x (f x)) -> Forall2 P l (map f l).
Proof. intro Hf. induction l; simpl; constructor; auto. Qed.

(** ** Found-string excerpts *)

(** C4: on a rule-matched event for a rule whose metas all have strings,
    the callback appends one Match and tells the engine to continue; the
    Match holds one excerpt per reported occurrence, in order, and the
    excerpt of every occurrence of a textual (non-hex) pattern is the matched
    bytes read as text with all null bytes removed, so it contains no null
    character.  For a rule with a meta without string the callback has no
    result and appends nothing. *)
Theorem textual_excerpt_strips_null_bytes {api : YaraApi}
    (rule : YR_RULE) (cb_data : callback_data) :
  let event :=
    get_match_data CALLBACK_MSG_RULE_MATCHING (to_rule rule) (Some cb_data) in
  (metas_have_strings rule = true ->
   exists m : Match,
     event
     = Ret (CALLBACK_CONTINUE, to_rule rule,
            Some {| yara_matches := (yara_matches cb_data ++ [m])%list;
                    pe_info := pe_info cb_data |})
     /\ Forall2
          (fun (o : YR_STRING * YR_MATCH) (found : string) =>
             STRING_IS_HEX (fst o) = false ->
             found = spec_text_excerpt (match_data (snd o))
             /\ ~ In Ascii.zero (list_ascii_of_string found))
          (occurrences rule) (found_strings m))
  /\ (metas_have_strings rule = false -> event = Undefined).
Proof.
  cbv zeta. destruct (rule_matching_event rule cb_data) as [Hreturns Hthrows].
  split; [|exact Hthrows].
  intro Hmetas. destruct (Hreturns Hmetas) as [m [Hret Hfound]].
  exists m. split; [exact Hret|].
  rewrite Hfound. apply Forall2_map_same.
  intros [s mt] Htext. unfold excerpt_of. cbn [fst snd] in *. rewrite Htext. cbn [negb].
  unfold text_excerpt. split.
  - apply erase_remove_filter.
  - apply erase_remove_absent.
Qed.

(** The wide "hi" of [rule_wide_hi], and a rule with an integer meta. *)
Lemma textual_excerpt_strips_null_bytes_witness :
  (metas_have_strings rule_wide_hi = true
   /\ exists m : Match,
        @get_match_data yara_h 1 (to_rule rule_wide_hi) (Some no_matches_yet)
        = Ret (0, to_rule rule_wide_hi,
               Some {| yara_matches := ([] ++ [m])%list; pe_info := None |})
        /\ Forall2
             (fun (o : YR_STRING * YR_MATCH) (found : string) =>
                STRING_IS_HEX (fst o) = false ->
                found = spec_text_excerpt (match_data (snd o))
                /\ ~ In Ascii.zero (list_ascii_of_string found))
             (occurrences rule_wide_hi) (found_strings m))
  /\ (metas_have_strings rule_with_integer_meta = false
      /\ @get_match_data yara_h 1 (to_rule rule_with_integer_meta) (Some no_matches_yet)
         = Undefined).
Proof.
  split.
  - split; [reflexivity|].
    exact (proj1 (@textual_excerpt_strips_null_bytes yara_h rule_wide_hi no_matches_yet)
             eq_refl).
  - split; [reflexivity|].
    exact (proj2 (@textual_excerpt_strips_null_bytes yara_h rule_with_integer_meta
                    no_matches_yet) eq_refl).
Defined.

(** C1 (as the code has it): on a rule-matched event for a rule whose metas
    all have strings, the excerpt of every occurrence of a hex pattern
    renders the first min(20, length) matched bytes, each as its lower-case
    hexadecimal value without padding (one digit below 0x10, two digits
    otherwise) followed by one space; a match longer than 20 bytes gives
    exactly 20 values followed by "...", a match of 20 bytes or fewer gives
    all its bytes and no marker.  For a rule with a meta without string the
    callback has no result and appends nothing. *)
Theorem hex_excerpt_is_unpadded_preview {api : YaraApi}
    (rule : YR_RULE) (cb_data : callback_data) :
  let event :=
    get_match_data CALLBACK_MSG_RULE_MATCHING (to_rule rule) (Some cb_data) in
  (metas_have_strings rule = true ->
   exists m : Match,
     event
     = Ret (CALLBACK_CONTINUE, to_rule rule,
            Some {| yara_matches := (yara_matches cb_data ++ [m])%list;
                    pe_info := pe_info cb_data |})
     /\ Forall2
          (fun (o : YR_STRING * YR_MATCH) (found : string) =>
             STRING_IS_HEX (fst o) = true ->
             let data := match_data (snd o) in
             let shown := map (fun b => (unpadded_hex b ++ " ")%string) (firstn 20 data) in
             List.length shown = Nat.min 20 (List.length data)
             /\ ((20 < List.length data)%nat ->
                 List.length shown = 20%nat /\ found = (join shown ++ "...")%string)
             /\ ((List.length data <= 20)%nat ->
                 found = join (map (fun b => (unpadded_hex b ++ " ")%string) data)))
          (occurrences rule) (found_strings m))
  /\ (metas_have_strings rule = false -> event = Undefined).
Proof.
  cbv zeta. destruct (rule_matching_event rule cb_data) as [Hreturns Hthrows].
  split; [|exact Hthrows].
  intro Hmetas. destruct (Hreturns Hmetas) as [m [Hret Hfound]].
  exists m. split; [exact Hret|].
  rewrite Hfound. apply Forall2_map_same.
  intros [s mt] Hhex. unfold excerpt_of. cbn [fst snd] in *. rewrite Hhex. cbn [negb].
  rewrite hex_excerpt_unpadded.
  unfold unpadded_hex_excerpt, truncation_marker. cbv zeta.
  rewrite length_map, length_firstn.
  split; [reflexivity|]. split.
  - intro Hlong. split; [lia|].
    destruct (Nat.ltb_spec 20 (List.length (match_data mt))); [reflexivity | lia].
  - intro Hshort.
    destruct (Nat.ltb_spec 20 (List.length (match_data mt))); [lia|].
    now rewrite firstn_all2, append_empty_r.
Qed.

(** The 21 bytes of [rule_hex_21], and a rule with an integer meta. *)
Lemma hex_excerpt_is_unpadded_preview_witness :
  (metas_have_strings rule_hex_21 = true
   /\ exists m : Match,
        @get_match_data yara_h 1 (to_rule rule_hex_21) (Some no_matches_yet)
        = Ret (0, to_rule rule_hex_21,
               Some {| yara_matches := ([] ++ [m])%list; pe_info := None |})
        /\ Forall2
             (fun (o : YR_STRING * YR_MATCH) (found : string) =>
                STRING_IS_HEX (fst o) = true ->
                let data := match_data (snd o) in
                let shown :=
                  map (fun b => (unpadded_hex b ++ " ")%string) (firstn 20 data) in
                List.length shown = Nat.min 20 (List.length data)
                /\ ((20 < List.length data)%nat ->
                    List.length shown = 20%nat
                    /\ found = (join shown ++ "...")%string)
                /\ ((List.length data <= 20)%nat ->
                    found = join (map (fun b => (unpadded_hex b ++ " ")%string) data)))
             (occurrences rule_hex_21) (found_strings m))
  /\ (metas_have_strings rule_with_integer_meta = false
      /\ @get_match_data yara_h 1 (to_rule rule_with_integer_meta) (Some no_matches_yet)
         = Undefined).
Proof.
  split.
  - split; [reflexivity|].
    exact (proj1 (@hex_excerpt_is_unpadded_preview yara_h rule_hex_21 no_matches_yet)
             eq_refl).
  - split; [reflexivity|].
    exact (proj2 (@hex_excerpt_is_unpadded_preview yara_h rule_with_integer_meta
                    no_matches_yet) eq_refl).
Defined.

(** C1 (as stated) fails for a byte below 0x10: for a hex pattern that
    matched the single byte 0x0a the excerpt is "a ", not the two-digit
    "0a ". *)
Lemma hex_excerpt_small_byte_has_one_digit :
  exists m : Match,
    @get_match_data yara_h (@CALLBACK_MSG_RULE_MATCHING yara_h)
      (to_rule rule_hex_0a) (Some no_matches_yet)
    = Ret (@CALLBACK_CONTINUE yara_h, to_rule rule_hex_0a,
           Some {| yara_matches := [m]; pe_info := None |})
    /\ found_strings m = ["a "%string]
    /\ spec_hex_excerpt [x0a] = "0a "%string
    /\ found_strings m <> [spec_hex_excerpt [x0a]].
Proof.
  eexists. split; [reflexivity|].
  split; [reflexivity|]. split; [reflexivity|]. discriminate.
Qed.

(** A 21-byte match is cut after 20 values; the wide "hi" loses its nulls. *)
Example hex_excerpt_of_21_bytes :
  found_strings (walk_strings (strings rule_hex_21) new_Match)
  = ["ff ff ff ff ff ff ff ff ff ff ff ff ff ff ff ff ff ff ff ff ..."%string].
Proof. reflexivity. Qed.

Example text_excerpt_of_wide_hi :
  found_strings (walk_strings (strings rule_wide_hi) new_Match) = ["hi"%string].
Proof. reflexivity. Qed.

(** ** The module-import event *)

(** C6: on a module-import event for the module "sgpe" the callback returns
    the engine's callback-error code (after a diagnostic) when no auxiliary
    data was supplied, and otherwise stores the auxiliary data in the event's
    module-data slot and returns success; for any other module name it
    returns success and leaves the event as it is. *)
Theorem import_module_event {api : YaraApi}
    (mi : YR_MODULE_IMPORT) (cb_data : callback_data) :
  let event := get_match_data CALLBACK_MSG_IMPORT_MODULE (to_module_import mi) (Some cb_data) in
  (module_name mi = "sgpe"%string -> pe_info cb_data = None ->
     exists msg : string,
       event = Do (PRINT_ERROR msg)
                 (fun _ => Ret (ERROR_CALLBACK_ERROR, to_module_import mi, Some cb_data)))
  /\ (module_name mi = "sgpe"%string ->
      forall d : handle, pe_info cb_data = Some d ->
        event = Ret (ERROR_SUCCESS,
                     to_module_import {| module_name := module_name mi;
                                         module_data := Some d |},
                     Some cb_data))
  /\ (module_name mi <> "sgpe"%string ->
      event = Ret (ERROR_SUCCESS, to_module_import mi, Some cb_data)).
Proof.
  pose proof case_labels_distinct as Hnd.
  inversion Hnd as [|? ? Hn1 Hnd1]; subst.
  inversion Hnd1 as [|? ? Hn2 _]; subst.
  assert (H1 : (CALLBACK_MSG_IMPORT_MODULE =? CALLBACK_MSG_RULE_MATCHING) = false).
  { apply Z.eqb_neq. intro E. apply Hn1. rewrite <- E. simpl. auto. }
  assert (H2 : (CALLBACK_MSG_IMPORT_MODULE =? CALLBACK_MSG_RULE_NOT_MATCHING) = false).
  { apply Z.eqb_neq. intro E. apply Hn2. rewrite <- E. simpl. auto. }
  cbv zeta. unfold get_match_data. rewrite H1, H2, Z.eqb_refl.
  repeat split.
  - intros Hname Hpe. rewrite Hname, Hpe. simpl. eexists. reflexivity.
  - intros Hname d Hpe. rewrite Hname, Hpe. reflexivity.
  - intros Hname. apply String.eqb_neq in Hname. now rewrite Hname.
Qed.

(** An "sgpe" import without auxiliary data, one with the auxiliary data at
    address 7, and an import of another module. *)
Lemma import_module_event_witness :
  (exists msg : string,
     @get_match_data yara_h 4 (to_module_import {| module_name := "sgpe"; module_data := None |})
       (Some no_matches_yet)
     = Do (PRINT_ERROR msg)
         (fun _ => Ret (28, to_module_import {| module_name := "sgpe"; module_data := None |},
                        Some no_matches_yet)))
  /\ @get_match_data yara_h 4 (to_module_import {| module_name := "sgpe"; module_data := None |})
       (Some {| yara_matches := []; pe_info := Some 7%positive |})
     = Ret (0, to_module_import {| module_name := "sgpe"; module_data := Some 7%positive |},
            Some {| yara_matches := []; pe_info := Some 7%positive |})
  /\ @get_match_data yara_h 4 (to_module_import {| module_name := "pe"; module_data := None |})
       (Some no_matches_yet)
     = Ret (0, to_module_import {| module_name := "pe"; module_data := None |},
            Some no_matches_yet).
Proof.
  split; [|split].
  - apply (proj1 (@import_module_event yara_h
                    {| module_name := "sgpe"; module_data := None |} no_matches_yet));
      reflexivity.
  - apply (proj1 (proj2 (@import_module_event yara_h
                    {| module_name := "sgpe"; module_data := None |}
                    {| yara_matches := []; pe_info := Some 7%positive |})));
      reflexivity.
  - apply (proj2 (proj2 (@import_module_event yara_h
                    {| module_name := "pe"; module_data := None |} no_matches_yet))).
    discriminate.
Defined.

(** ** Runs *)

Lemma run_bind {W A B : Type} (h : handler W) (p : prog A) (f : A -> prog B) (w : W) :
  run h (bind p f) w
  = match run h p w with
    | Some (a, w1, l1) =>
        match run h (f a) w1 with
        | Some (b, w2, l2) => Some (b, w2, (l1 ++ l2)%list)
        | None => None
        end
    | None => None
    end.
Proof.
  revert w. induction p as [a|X c k IH|]; intro w; simpl.
  - now destruct (run h (f a) w) as [[[b w2] l2]|].
  - destruct (h X c w) as [x w1]. rewrite IH.
    destruct (run h (k x) w1) as [[[a w2] l1]|]; [|reflexivity].
    now destruct (run h (f a) w2) as [[[b w3] l2]|].
  - reflexivity.
Qed.

Lemma clean_runs {api : YaraApi} {W : Type} (h : handler W) (self : Yara) (w : W) :
  exists w1 : W,
    run h (_clean_compiler_and_rules self) w = Some (tt, w1, cleanup_log self).
Proof.
  unfold _clean_compiler_and_rules, cleanup_log.
  destruct (_compiler self) as [c|]; destruct (_rules self) as [r|]; simpl;
    repeat match goal with
           | |- context [h ?X ?c ?w] => destruct (h X c w) as [[] ?]
           end;
    eexists; reflexivity.
Qed.

Lemma cleanup_log_only_destroys (self : Yara) (e : entry) :
  In e (cleanup_log self) ->
  e = E_yr_compiler_destroy (_compiler self) \/ e = E_yr_rules_destroy (_rules self).
Proof.
  unfold cleanup_log. intro H. apply in_app_or in H.
  destruct (_compiler self); destruct (_rules self); simpl in H; intuition auto.
Qed.

(** Case analysis on the test of the conditional that a run is stuck on. *)
Ltac case_on b :=
  lazymatch b with
  | context [Z.eqb ?x ?y] => destruct (Z.eqb_spec x y)
  | context [is_null ?p] => destruct p eqn:?
  | _ => destruct b eqn:?
  end.

(** Symbolic execution of the run in [H] against the handler [h]: every
    answer of [h] is named, every conditional is split. *)
Ltac exec h H :=
  repeat (cbn [run bind perform describe fst snd negb andb is_null] in H;
    match type of H with
    | context [run _ (if ?b then _ else _) _] => case_on b
    | context [bind (if ?b then _ else _) _] => case_on b
    | context [h ?X ?c ?w] => destruct (h X c w) eqn:?
    end).

(** Membership of an entry in an explicit log: the impossible positions are
    discarded, the possible ones are left as equations. *)
Ltac in_log H :=
  cbn [In app] in H;
  repeat (destruct H as [H|H]; [try discriminate H|]); try contradiction H.

(** Entry of a run of [load_rules] that is not the same-path no-op: the log
    is split into the clean-up and the body [Hbody]. *)
Ltac enter_load h Hrun Hbody :=
  unfold load_rules in Hrun;
  match type of Hrun with
  | context [String.eqb ?a ?b] =>
      destruct (String.eqb_spec a b) as [?|_]; [congruence|]
  end;
  rewrite run_bind in Hrun;
  match type of Hrun with
  | context [run h (_clean_compiler_and_rules ?self) ?w] =>
      let w1 := fresh "w" in
      let Hclean := fresh "Hclean" in
      destruct (clean_runs h self w) as [w1 Hclean]; rewrite Hclean in Hrun; clear Hclean
  end;
  match type of Hrun with
  | match ?r with _ => _ end = _ =>
      let body := fresh "body" in
      destruct r as [[[[? ?] ?] body]|] eqn:Hbody; [|discriminate Hrun]
  end;
  injection Hrun as -> -> -> <-;
  unfold END in Hbody.

(** What every run of [load_rules] on a path other than the recorded one
    does: it first destroys the handles it holds and looks for the artifact;
    when it fails it keeps the recorded path; when the load answers the
    success code it returns true and keeps the recorded path; when it saved
    an artifact it records the new path. *)
Lemma load_rules_other_path {api : YaraApi} {W : Type} (h : handler W) (w w' : W)
    (self self' : Yara) (p : string) (res : bool) (log : list entry) :
  _current_rules self <> p ->
  run h (load_rules self p) w = Some ((res, self'), w', log) ->
  (exists compiled rest,
     log = (cleanup_log self ++ E_fs_exists (p ++ "c") compiled :: rest)%list)
  /\ (res = false -> _current_rules self' = _current_rules self)
  /\ (forall file rules0 r,
        In (E_yr_rules_load file rules0 ERROR_SUCCESS r) log ->
        res = true /\ _rules self' = r /\ _current_rules self' = _current_rules self)
  /\ (forall saved artifact,
        In (E_yr_rules_save saved artifact ERROR_SUCCESS) log ->
        _current_rules self' = p).
Proof.
  intros Hne Hrun. enter_load h Hrun Hbody.
  exec h Hbody; injection Hbody as <- <- <- <-;
    (split; [eexists; eexists; reflexivity|]);
    (split; [intro; try reflexivity; discriminate|]);
    (split;
     [intros file rules0 r Hin | intros saved artifact Hin];
     apply in_app_or in Hin;
     (destruct Hin as [Hin|Hin];
      [apply cleanup_log_only_destroys in Hin; destruct Hin; discriminate|]);
     in_log Hin; try reflexivity).
  all: try (injection Hin as _ _ Hin; congruence).
  all: injection Hin as _ _ Hret Hr; try congruence; repeat split; cbn; congruence.
Qed.

(** ** Scans *)

(** C7: with no rule set loaded (the rules handle is null), [scan_bytes] and
    [scan_file] return normally with the empty result, and the only call
    they make is the one that logs the diagnostic: the engine's scan is not
    invoked. *)
Theorem scan_without_rules {api : YaraApi} {W : Type} (h : handler W) (w : W)
    (self : Yara) :
  _rules self = None ->
  let said := PRINT_ERROR "No Yara rules loaded!" in
  (forall bytes : list byte,
     run h (scan_bytes self bytes) w
     = Some ([], snd (h _ said w), [E_PRINT_ERROR "No Yara rules loaded!"]))
  /\ (forall (path : string) (pe_data : ptr),
        run h (scan_file self path pe_data) w
        = Some ([], snd (h _ said w), [E_PRINT_ERROR "No Yara rules loaded!"])).
Proof.
  intros Hnull said. unfold scan_bytes, scan_file. rewrite Hnull.
  split; intros; cbn; subst said;
    destruct (h unit (PRINT_ERROR "No Yara rules loaded!") w) as [[] w1];
    reflexivity.
Qed.

Lemma scan_without_rules_witness :
  _rules Yara_new = None
  /\ run (play precompiled_world) (@scan_bytes yara_h Yara_new [x68; x69]) tt
     = Some ([], tt, [E_PRINT_ERROR "No Yara rules loaded!"])
  /\ run (play precompiled_world) (@scan_file yara_h Yara_new "sample.exe" None) tt
     = Some ([], tt, [E_PRINT_ERROR "No Yara rules loaded!"]).
Proof.
  split; [reflexivity|]. split.
  - apply (proj1 (@scan_without_rules yara_h unit (play precompiled_world) tt
                    Yara_new eq_refl) [x68; x69]).
  - apply (proj2 (@scan_without_rules yara_h unit (play precompiled_world) tt
                    Yara_new eq_refl) "sample.exe"%string None).
Defined.

(** C8: [scan_bytes] on a zero-length buffer returns the empty result and
    never invokes the engine's scan; with a rule set loaded it makes no call
    at all, and without one it only logs the diagnostic. *)
Theorem scan_bytes_empty_buffer {api : YaraApi} {W : Type} (h : handler W) (w : W)
    (self : Yara) :
  exists (w' : W) (log : list entry),
    run h (scan_bytes self []) w = Some ([], w', log)
    /\ log = (if is_null (_rules self)
              then [E_PRINT_ERROR "No Yara rules loaded!"] else [])
    /\ (is_null (_rules self) = false -> w' = w)
    /\ (forall rules buffer size flags timeout,
          ~ In (E_yr_rules_scan_mem rules buffer size flags timeout) log).
Proof.
  unfold scan_bytes. destruct (_rules self) as [r|]; cbn.
  - exists w, []. repeat split. intros ? ? ? ? ? [].
  - destruct (h unit (PRINT_ERROR "No Yara rules loaded!") w) as [[] w1].
    exists w1, [E_PRINT_ERROR "No Yara rules loaded!"]. repeat split.
    + discriminate.
    + intros ? ? ? ? ? [Hin|[]]. discriminate.
Qed.

(** C5: when the engine's scan call returns a code other than the success
    code, [scan_bytes] and [scan_file] return the empty result, whatever the
    callback accumulated during the scan. *)
Theorem failed_scan_discards_matches {api : YaraApi} {W : Type} (h : handler W)
    (w : W) (self : Yara) :
  (forall (bytes : list byte) (retval : Z) (accumulated : callback_data),
     engine_outcome h
       (yr_rules_scan_mem (_rules self) bytes (Z.of_nat (List.length bytes))
          SCAN_FLAGS_PROCESS_MEMORY 0)
       {| yara_matches := []; pe_info := None |} w
     = Some (retval, accumulated) ->
     retval <> ERROR_SUCCESS ->
     exists (w' : W) (log : list entry),
       run h (scan_bytes self bytes) w = Some ([], w', log))
  /\ (forall (path : string) (pe_data : ptr) (retval : Z) (accumulated : callback_data),
        engine_outcome h
          (yr_rules_scan_file (_rules self) path SCAN_FLAGS_PROCESS_MEMORY 0)
          {| yara_matches := []; pe_info := pe_data |} w
        = Some (retval, accumulated) ->
        retval <> ERROR_SUCCESS ->
        exists (w' : W) (log : list entry),
          run h (scan_file self path pe_data) w = Some ([], w', log)).
Proof.
  split.
  - intros bytes retval acc Hout Hfail. unfold scan_bytes.
    destruct (_rules self) as [r|]; cbn [is_null orb].
    + destruct (Z.eqb_spec (Z.of_nat (List.length bytes)) 0) as [Hz|Hnz].
      * cbn. eauto.
      * unfold engine_outcome in Hout. cbn [run bind perform].
        destruct (h session _ w) as [s w1].
        rewrite run_bind.
        destruct (run h (conduct s _) w1) as [[[a w2] l]|]; [|discriminate].
        injection Hout as ->. cbn [fst snd].
        destruct (Z.eqb_spec retval ERROR_SUCCESS) as [|_]; [contradiction|].
        cbn. destruct (h unit _ w2) as [[] w3]. eauto.
    + cbn. destruct (h unit _ w) as [[] w1]. eauto.
  - intros path pe_data retval acc Hout Hfail. unfold scan_file.
    destruct (_rules self) as [r|]; cbn [is_null].
    + unfold engine_outcome in Hout. cbn [run bind perform].
      destruct (h session _ w) as [s w1].
      rewrite run_bind.
      destruct (run h (conduct s _) w1) as [[[a w2] l]|]; [|discriminate].
      injection Hout as ->. cbn [fst snd].
      destruct (Z.eqb_spec retval ERROR_SUCCESS) as [|_]; [contradiction|].
      cbn. destruct (h unit _ w2) as [[] w3]. eauto.
    + cbn. destruct (h unit _ w) as [[] w1]. eauto.
Qed.

(** A scan that reports the match of [rule_hi] and then times out. *)
Lemma failed_scan_discards_matches_witness :
  let accumulated :=
    {| yara_matches := [ {| metadata := []; found_strings := ["hi"%string] |} ];
       pe_info := None |} in
  (@engine_outcome yara_h unit (play (source_world 0))
     (yr_rules_scan_mem (Some 4%positive) [x68; x69] 2 2 0) no_matches_yet tt
   = Some (26, accumulated)
   /\ 26 <> 0
   /\ exists (w' : unit) (log : list entry),
        run (play (source_world 0)) (@scan_bytes yara_h Yara_a [x68; x69]) tt
        = Some ([], w', log))
  /\ (@engine_outcome yara_h unit (play (source_world 0))
        (yr_rules_scan_file (Some 4%positive) "sample.exe" 2 0) no_matches_yet tt
      = Some (26, accumulated)
      /\ 26 <> 0
      /\ exists (w' : unit) (log : list entry),
           run (play (source_world 0)) (@scan_file yara_h Yara_a "sample.exe" None) tt
           = Some ([], w', log)).
Proof.
  intro accumulated. split.
  - split; [reflexivity|]. split; [discriminate|].
    apply (proj1 (@failed_scan_discards_matches yara_h unit (play (source_world 0)) tt
                    Yara_a) [x68; x69] 26 accumulated);
      [reflexivity | discriminate].
  - split; [reflexivity|]. split; [discriminate|].
    apply (proj2 (@failed_scan_discards_matches yara_h unit (play (source_world 0)) tt
                    Yara_a) "sample.exe"%string None 26 accumulated);
      [reflexivity | discriminate].
Defined.

(** ** Loading rules *)

(** C3: whenever the load of the artifact answers the engine's success code,
    [load_rules p] returns true with the rule set attached, but it leaves the
    recorded path as it was, which is not [p]: the early return skips the
    recording that the compile path makes. *)
Theorem direct_load_leaves_path_unrecorded {api : YaraApi} {W : Type} (h : handler W)
    (w w' : W) (self self' : Yara) (p : string) (res : bool) (log : list entry)
    (file : string) (rules0 r : ptr) :
  run h (load_rules self p) w = Some ((res, self'), w', log) ->
  In (E_yr_rules_load file rules0 ERROR_SUCCESS r) log ->
  res = true
  /\ _rules self' = r
  /\ _current_rules self' = _current_rules self
  /\ _current_rules self' <> p.
Proof.
  intros Hrun Hload.
  destruct (String.eqb_spec (_current_rules self) p) as [Heq|Hne].
  - unfold load_rules in Hrun. apply String.eqb_eq in Heq. rewrite Heq in Hrun.
    injection Hrun as _ _ _ <-. destruct Hload.
  - destruct (load_rules_other_path h _ _ _ _ _ _ _ Hne Hrun) as [_ [_ [Hdirect _]]].
    destruct (Hdirect _ _ _ Hload) as [Hres [Hrules Hcur]].
    repeat split; [exact Hres | exact Hrules | exact Hcur | congruence].
Qed.

(** A fresh scanner loads "rules.yara" where "rules.yarac" exists and loads:
    the call returns true and the recorded path is still empty. *)
Lemma direct_load_leaves_path_unrecorded_witness :
  run (play precompiled_world) (@load_rules yara_h Yara_new "rules.yara") tt
  = Some ((true, Yara_loaded), tt, direct_load_log None)
  /\ In (E_yr_rules_load "rules.yarac" None 0 (Some 1%positive)) (direct_load_log None)
  /\ _rules Yara_loaded = Some 1%positive
  /\ _current_rules Yara_loaded = ""%string
  /\ _current_rules Yara_loaded <> "rules.yara"%string.
Proof.
  assert (Hload : In (E_yr_rules_load "rules.yarac" None 0 (Some 1%positive))
                    (direct_load_log None)) by (cbn; tauto).
  split; [reflexivity|]. split; [exact Hload|].
  destruct (@direct_load_leaves_path_unrecorded yara_h unit (play precompiled_world)
              tt tt Yara_new Yara_loaded "rules.yara"%string true (direct_load_log None)
              "rules.yarac"%string None (Some 1%positive) eq_refl Hload)
    as [_ [Hrules [Hcur Hother]]].
  split; [exact Hrules|]. split; [exact Hcur | exact Hother].
Defined.

(** C2: after a [load_rules p] that succeeded by a direct load, a second
    [load_rules p] is not a no-op: it destroys the handles the scanner holds
    and looks the artifact up again before it loads. *)
Theorem repeated_direct_load_is_not_a_noop {api : YaraApi} {W : Type} (h : handler W)
    (w0 w1 w2 : W) (self0 self1 self2 : Yara) (p : string) (res2 : bool)
    (log1 log2 : list entry) (file : string) (rules0 r : ptr) :
  run h (load_rules self0 p) w0 = Some ((true, self1), w1, log1) ->
  In (E_yr_rules_load file rules0 ERROR_SUCCESS r) log1 ->
  run h (load_rules self1 p) w1 = Some ((res2, self2), w2, log2) ->
  exists compiled rest,
    log2 = (cleanup_log self1 ++ E_fs_exists (p ++ "c") compiled :: rest)%list.
Proof.
  intros Hrun1 Hload Hrun2.
  assert (Hne : _current_rules self1 <> p).
  { destruct (String.eqb_spec (_current_rules self0) p) as [Heq|Hne0].
    - unfold load_rules in Hrun1. apply String.eqb_eq in Heq. rewrite Heq in Hrun1.
      injection Hrun1 as _ _ <-. destruct Hload.
    - destruct (load_rules_other_path h _ _ _ _ _ _ _ Hne0 Hrun1) as [_ [_ [Hdirect _]]].
      destruct (Hdirect _ _ _ Hload) as [_ [_ Hcur]]. congruence. }
  destruct (load_rules_other_path h _ _ _ _ _ _ _ Hne Hrun2) as [Hlog _].
  exact Hlog.
Qed.

(** The same load twice in a row: the second call destroys the rule set at
    address 1 and loads the artifact again. *)
Lemma repeated_direct_load_is_not_a_noop_witness :
  run (play precompiled_world) (@load_rules yara_h Yara_new "rules.yara") tt
  = Some ((true, Yara_loaded), tt, direct_load_log None)
  /\ In (E_yr_rules_load "rules.yarac" None 0 (Some 1%positive)) (direct_load_log None)
  /\ run (play precompiled_world) (@load_rules yara_h Yara_loaded "rules.yara") tt
     = Some ((true, Yara_loaded), tt,
             E_yr_rules_destroy (Some 1%positive) :: direct_load_log (Some 1%positive))
  /\ exists compiled rest,
       E_yr_rules_destroy (Some 1%positive) :: direct_load_log (Some 1%positive)
       = (cleanup_log Yara_loaded ++ E_fs_exists "rules.yarac" compiled :: rest)%list.
Proof.
  assert (Hload : In (E_yr_rules_load "rules.yarac" None 0 (Some 1%positive))
                    (direct_load_log None)) by (cbn; tauto).
  split; [reflexivity|]. split; [exact Hload|]. split; [reflexivity|].
  exact (@repeated_direct_load_is_not_a_noop yara_h unit (play precompiled_world)
           tt tt tt Yara_new Yara_loaded Yara_loaded "rules.yara"%string true
           (direct_load_log None)
           (E_yr_rules_destroy (Some 1%positive) :: direct_load_log (Some 1%positive))
           "rules.yarac"%string None (Some 1%positive) eq_refl Hload eq_refl).
Defined.

(** C9: after a [load_rules p1] that succeeded on the compile path (it saved
    the artifact) and a failing [load_rules p2] with another path, the
    scanner still records [p1], although the second call began by destroying
    the compiler and the rule set of [p1]; a further [load_rules p1] returns
    true at once, without any call: no rules are loaded. *)
Theorem stale_path_after_failed_reload {api : YaraApi} {W : Type} (h : handler W)
    (w0 w1 w2 : W) (self0 self1 self2 : Yara) (p1 p2 : string)
    (log1 log2 : list entry) (saved : ptr) (artifact : string) (c1 r1 : handle) :
  run h (load_rules self0 p1) w0 = Some ((true, self1), w1, log1) ->
  In (E_yr_rules_save saved artifact ERROR_SUCCESS) log1 ->
  _compiler self1 = Some c1 ->
  _rules self1 = Some r1 ->
  p2 <> p1 ->
  run h (load_rules self1 p2) w1 = Some ((false, self2), w2, log2) ->
  _current_rules self2 = p1
  /\ (exists rest,
        log2 = E_yr_compiler_destroy (Some c1) :: E_yr_rules_destroy (Some r1) :: rest)
  /\ (forall (W' : Type) (h' : handler W') (w' : W'),
        run h' (load_rules self2 p1) w' = Some ((true, self2), w', [])).
Proof.
  intros Hrun1 Hsaved Hc Hr Hne Hrun2.
  assert (Hrec1 : _current_rules self1 = p1).
  { destruct (String.eqb_spec (_current_rules self0) p1) as [Heq|Hne0].
    - unfold load_rules in Hrun1. apply String.eqb_eq in Heq. rewrite Heq in Hrun1.
      injection Hrun1 as _ _ <-. destruct Hsaved.
    - destruct (load_rules_other_path h _ _ _ _ _ _ _ Hne0 Hrun1) as [_ [_ [_ Hrec]]].
      exact (Hrec _ _ Hsaved). }
  assert (Hne1 : _current_rules self1 <> p2) by congruence.
  destruct (load_rules_other_path h _ _ _ _ _ _ _ Hne1 Hrun2)
    as [[compiled [body Hlog]] [Hkeep _]].
  assert (Hrec2 : _current_rules self2 = p1) by (rewrite Hkeep; auto).
  split; [exact Hrec2|]. split.
  - exists (E_fs_exists (p2 ++ "c") compiled :: body).
    rewrite Hlog. unfold cleanup_log. rewrite Hc, Hr. reflexivity.
  - intros W' h' w'. unfold load_rules. rewrite Hrec2, String.eqb_refl. reflexivity.
Qed.

(** Compiling "a.yara", failing to load "b.yara", asking for "a.yara" again. *)
Lemma stale_path_after_failed_reload_witness :
  run (play (source_world 0)) (@load_rules yara_h Yara_new "a.yara") tt
  = Some ((true, Yara_a), tt, compile_a_log 0)
  /\ In (E_yr_rules_save (Some 4%positive) "a.yarac" 0) (compile_a_log 0)
  /\ _compiler Yara_a = Some 2%positive
  /\ _rules Yara_a = Some 4%positive
  /\ "b.yara"%string <> "a.yara"%string
  /\ run (play (source_world 0)) (@load_rules yara_h Yara_a "b.yara") tt
     = Some ((false, Yara_a), tt,
             E_yr_compiler_destroy (Some 2%positive)
             :: E_yr_rules_destroy (Some 4%positive) :: failed_b_log)
  /\ _current_rules Yara_a = "a.yara"%string
  /\ run (play (source_world 0)) (@load_rules yara_h Yara_a "a.yara") tt
     = Some ((true, Yara_a), tt, []).
Proof.
  assert (Hsaved : In (E_yr_rules_save (Some 4%positive) "a.yarac" 0) (compile_a_log 0))
    by (cbn; tauto).
  assert (Hne : "b.yara"%string <> "a.yara"%string) by discriminate.
  split; [reflexivity|]. split; [exact Hsaved|].
  split; [reflexivity|]. split; [reflexivity|]. split; [exact Hne|].
  split; [reflexivity|].
  destruct (@stale_path_after_failed_reload yara_h unit (play (source_world 0))
              tt tt tt Yara_new Yara_a Yara_a "a.yara"%string "b.yara"%string
              (compile_a_log 0)
              (E_yr_compiler_destroy (Some 2%positive)
               :: E_yr_rules_destroy (Some 4%positive) :: failed_b_log)
              (Some 4%positive) "a.yarac"%string 2%positive 4%positive
              eq_refl Hsaved eq_refl eq_refl Hne eq_refl) as [Hrec [_ Hnoop]].
  split; [exact Hrec | exact (Hnoop unit (play (source_world 0)) tt)].
Defined.

(** C10: when, in a run of [load_rules p], the compilation and the
    extraction of the rules succeed and saving the artifact at [p ++ "c"]
    fails, the call returns false and the recorded path is unchanged and
    different from [p], yet the compiled rule set stays in [_rules]: the next
    [scan_bytes] on a non-empty buffer and the next [scan_file] start by
    invoking the engine's scan on that rule set. *)
Theorem failed_save_keeps_compiled_rules {api : YaraApi} {W : Type} (h : handler W)
    (w w' : W) (self self' : Yara) (p : string) (res : bool) (log : list entry)
    (compiler rule_file rules0 : ptr) (r : handle) (code : Z) :
  run h (load_rules self p) w = Some ((res, self'), w', log) ->
  In (E_yr_compiler_add_file compiler rule_file ERROR_SUCCESS) log ->
  In (E_yr_compiler_get_rules compiler rules0 ERROR_SUCCESS (Some r)) log ->
  In (E_yr_rules_save (Some r) (p ++ "c") code) log ->
  code <> ERROR_SUCCESS ->
  res = false
  /\ _current_rules self' = _current_rules self
  /\ _current_rules self' <> p
  /\ _rules self' = Some r
  /\ (forall bytes : list byte, bytes <> [] ->
        exists k,
          scan_bytes self' bytes
          = Do (yr_rules_scan_mem (Some r) bytes (Z.of_nat (List.length bytes))
                  SCAN_FLAGS_PROCESS_MEMORY 0) k)
  /\ (forall (path : string) (pe_data : ptr),
        exists k,
          scan_file self' path pe_data
          = Do (yr_rules_scan_file (Some r) path SCAN_FLAGS_PROCESS_MEMORY 0) k).
Proof.
  intros Hrun Hadd Hget Hsave Hcode.
  destruct (String.eqb_spec (_current_rules self) p) as [Heq|Hne].
  { unfold load_rules in Hrun. apply String.eqb_eq in Heq. rewrite Heq in Hrun.
    injection Hrun as _ _ _ <-. destruct Hget. }
  assert (Hstate : res = false /\ _current_rules self' = _current_rules self
                   /\ _rules self' = Some r).
  { clear Hadd. enter_load h Hrun Hbody.
    apply in_app_or in Hget, Hsave.
    destruct Hget as [Hget|Hget];
      [apply cleanup_log_only_destroys in Hget; destruct Hget; discriminate|].
    destruct Hsave as [Hsave|Hsave];
      [apply cleanup_log_only_destroys in Hsave; destruct Hsave; discriminate|].
    exec h Hbody; injection Hbody as <- <- <- <-;
      in_log Hget; in_log Hsave;
      injection Hget as _ _ _ Hr; injection Hsave as _ Hc;
      try congruence; repeat split; cbn; congruence. }
  destruct Hstate as [Hres [Hcur Hrules]].
  split; [exact Hres|]. split; [exact Hcur|]. split; [congruence|].
  split; [exact Hrules|]. split.
  - intros bytes Hbytes. unfold scan_bytes. rewrite Hrules. cbn [is_null orb].
    destruct (Z.eqb_spec (Z.of_nat (List.length bytes)) 0) as [Hz|_].
    + destruct bytes; [contradiction | discriminate].
    + eexists. reflexivity.
  - intros path pe_data. unfold scan_file. rewrite Hrules. cbn [is_null].
    eexists. reflexivity.
Qed.

(** Compiling "a.yara" where the artifact cannot be written. *)
Lemma failed_save_keeps_compiled_rules_witness :
  run (play (source_world 3)) (@load_rules yara_h Yara_new "a.yara") tt
  = Some ((false, Yara_unsaved), tt, compile_a_log 3)
  /\ In (E_yr_compiler_add_file (Some 2%positive) (Some 3%positive) 0) (compile_a_log 3)
  /\ In (E_yr_compiler_get_rules (Some 2%positive) None 0 (Some 4%positive))
       (compile_a_log 3)
  /\ In (E_yr_rules_save (Some 4%positive) "a.yarac" 3) (compile_a_log 3)
  /\ 3 <> 0
  /\ _current_rules Yara_unsaved = _current_rules Yara_new
  /\ _current_rules Yara_unsaved <> "a.yara"%string
  /\ _rules Yara_unsaved = Some 4%positive
  /\ (exists k,
        @scan_bytes yara_h Yara_unsaved [x68; x69]
        = Do (yr_rules_scan_mem (Some 4%positive) [x68; x69] 2 2 0) k)
  /\ (exists k,
        @scan_file yara_h Yara_unsaved "sample.exe" None
        = Do (yr_rules_scan_file (Some 4%positive) "sample.exe" 2 0) k).
Proof.
  assert (Hadd : In (E_yr_compiler_add_file (Some 2%positive) (Some 3%positive) 0)
                   (compile_a_log 3)) by (cbn; tauto).
  assert (Hget : In (E_yr_compiler_get_rules (Some 2%positive) None 0 (Some 4%positive))
                   (compile_a_log 3)) by (cbn; tauto).
  assert (Hsave : In (E_yr_rules_save (Some 4%positive) "a.yarac" 3) (compile_a_log 3))
    by (cbn; tauto).
  assert (Hcode : 3 <> 0) by discriminate.
  split; [reflexivity|]. split; [exact Hadd|]. split; [exact Hget|].
  split; [exact Hsave|]. split; [exact Hcode|].
  destruct (@failed_save_keeps_compiled_rules yara_h unit (play (source_world 3))
              tt tt Yara_new Yara_unsaved "a.yara"%string false (compile_a_log 3)
              (Some 2%positive) (Some 3%positive) None 4%positive 3
              eq_refl Hadd Hget Hsave Hcode)
    as [_ [Hcur [Hother [Hrules [Hbytes Hfile]]]]].
  split; [exact Hcur|]. split; [exact Hother|]. split; [exact Hrules|].
  split; [exact (Hbytes [x68; x69] ltac:(discriminate))
         | exact (Hfile "sample.exe"%string None)].
Defined.

(** * Further properties of the wrapper *)

(** ** Loading rules, path by path *)

Ltac not_in_cleanup H :=
  apply in_app_or in H;
  destruct H as [H|H];
  [apply cleanup_log_only_destroys in H; destruct H; discriminate|].

(** The answers of the handler as components, the codes substituted. *)
Ltac name_answers :=
  repeat match goal with
         | a : (_ * _)%type |- _ => destruct a
         end;
  cbn [fst snd] in *; subst.

(** Membership by position in an explicit log. *)
Ltac find_in_log := repeat first [apply in_eq | apply in_cons].

Lemma load_rules_noop {api : YaraApi} {W : Type} (h : handler W) (w : W)
    (self : Yara) (p : string) :
  _current_rules self = p ->
  run h (load_rules self p) w = Some ((true, self), w, []).
Proof. intro H. unfold load_rules. apply String.eqb_eq in H. now rewrite H. Qed.

(** The state after a run that saved the artifact with the success code. *)
Lemma saved_load_state {api : YaraApi} {W : Type} (h : handler W)
    (w w' : W) (self self' : Yara) (p : string) (res : bool) (log : list entry)
    (saved : ptr) (artifact : string) :
  _current_rules self <> p ->
  run h (load_rules self p) w = Some ((res, self'), w', log) ->
  In (E_yr_rules_save saved artifact ERROR_SUCCESS) log ->
  res = true /\ _current_rules self' = p /\ _rules self' = saved
  /\ artifact = (p ++ "c")%string.
Proof.
  intros Hne Hrun Hin.
  enter_load h Hrun Hbody. not_in_cleanup Hin.
  exec h Hbody; injection Hbody as <- <- <- <-; in_log Hin;
    injection Hin as <- <- Hcode; try congruence; repeat split.
Qed.

(** X1: a run of [load_rules p] that saved the artifact with the success
    code returns true, records [p], holds the saved rule set and wrote the
    artifact at [p ++ "c"]; the next [load_rules p] is the same-path no-op
    under every handler: it returns true in the same world with an empty
    log. *)
Theorem saved_load_is_recorded_and_cached {api : YaraApi} {W : Type} (h : handler W)
    (w w' : W) (self self' : Yara) (p : string) (res : bool) (log : list entry)
    (saved : ptr) (artifact : string) :
  run h (load_rules self p) w = Some ((res, self'), w', log) ->
  In (E_yr_rules_save saved artifact ERROR_SUCCESS) log ->
  res = true
  /\ _current_rules self' = p
  /\ _rules self' = saved
  /\ artifact = (p ++ "c")%string
  /\ (forall (W' : Type) (h' : handler W') (v : W'),
        run h' (load_rules self' p) v = Some ((true, self'), v, [])).
Proof.
  intros Hrun Hin.
  destruct (String.eqb_spec (_current_rules self) p) as [Heq|Hne].
  { rewrite (load_rules_noop h w self p Heq) in Hrun.
    injection Hrun as _ _ _ <-. destruct Hin. }
  destruct (saved_load_state h _ _ _ _ _ _ _ _ _ Hne Hrun Hin)
    as [Hres [Hcur [Hrules Hart]]].
  repeat split; try assumption.
  intros W' h' v. apply load_rules_noop. exact Hcur.
Qed.

(** X2: on a path other than the recorded one, [load_rules] returns true
    exactly when the load answered the success code or the artifact was
    saved with the success code. *)
Theorem load_rules_success_means_loaded {api : YaraApi} {W : Type} (h : handler W)
    (w w' : W) (self self' : Yara) (p : string) (res : bool) (log : list entry) :
  _current_rules self <> p ->
  run h (load_rules self p) w = Some ((res, self'), w', log) ->
  (res = true <->
   (exists file rules0 r, In (E_yr_rules_load file rules0 ERROR_SUCCESS r) log)
   \/ (exists saved artifact, In (E_yr_rules_save saved artifact ERROR_SUCCESS) log)).
Proof.
  intros Hne Hrun. split.
  - intro Hres. subst res. enter_load h Hrun Hbody.
    exec h Hbody; try discriminate Hbody; injection Hbody as <- <- <-;
      name_answers;
      first [ solve [left; do 3 eexists; apply in_or_app; right; find_in_log]
            | solve [right; do 2 eexists; apply in_or_app; right; find_in_log] ].
  - intros [[file [rules0 [r Hin]]]|[saved [artifact Hin]]].
    + destruct (load_rules_other_path h _ _ _ _ _ _ _ Hne Hrun) as [_ [_ [Hd _]]].
      exact (proj1 (Hd _ _ _ Hin)).
    + exact (proj1 (saved_load_state h _ _ _ _ _ _ _ _ _ Hne Hrun Hin)).
Qed.


(** X3: the rule file is opened only as [p] in mode "r"; when [fopen]
    answers a handle, the last call of the run closes that handle and no
    other call closes a file; when it answers null the run fails without any
    [fclose]; and no file is closed that was not opened. *)
Theorem opened_rule_file_is_closed {api : YaraApi} {W : Type} (h : handler W)
    (w w' : W) (self self' : Yara) (p : string) (res : bool) (log : list entry) :
  run h (load_rules self p) w = Some ((res, self'), w', log) ->
  (forall (name mode : string) (file : ptr),
     In (E_fopen name mode file) log ->
     name = p /\ mode = "r"%string
     /\ ((file = None /\ res = false /\ forall f, ~ In (E_fclose f) log)
         \/ (exists before,
               log = (before ++ [E_fclose file])%list
               /\ forall f, ~ In (E_fclose f) before)))
  /\ (forall f : ptr, In (E_fclose f) log -> In (E_fopen p "r" f) log).
Proof.
  intros Hrun.
  destruct (String.eqb_spec (_current_rules self) p) as [Heq|Hne].
  { rewrite (load_rules_noop h w self p Heq) in Hrun.
    injection Hrun as _ _ _ <-. split; intros; contradiction. }
  enter_load h Hrun Hbody.
  exec h Hbody; injection Hbody as <- <- <- <-; split.
  all: try (intros f Hf; not_in_cleanup Hf; in_log Hf;
            injection Hf as <-; apply in_or_app; right; find_in_log).
  all: intros name mode file Hin; not_in_cleanup Hin; in_log Hin;
    injection Hin as <- <- <-; (split; [reflexivity|]); (split; [reflexivity|]).
  all: first
    [ solve [left; split; [reflexivity|]; split; [reflexivity|];
             intros f Hf; not_in_cleanup Hf; in_log Hf]
    | right;
      match goal with
      | |- exists before, (?c ++ ?body)%list = _ /\ _ =>
          exists (c ++ removelast body)%list
      end;
      split;
      [ rewrite <- app_assoc; reflexivity
      | intros f Hf; not_in_cleanup Hf; cbn [removelast] in Hf; in_log Hf ] ].
Qed.

(** The run whose load answers a code other than success and invalid-file. *)
Lemma load_error_shape {api : YaraApi} {W : Type} (h : handler W)
    (w w' : W) (self self' : Yara) (p : string) (res : bool) (log : list entry)
    (file : string) (rules0 r : ptr) (code : Z) :
  _current_rules self <> p ->
  run h (load_rules self p) w = Some ((res, self'), w', log) ->
  In (E_yr_rules_load file rules0 code r) log ->
  code <> ERROR_SUCCESS ->
  code <> ERROR_INVALID_FILE ->
  res = false
  /\ _current_rules self' = _current_rules self
  /\ _compiler self' = _compiler self
  /\ exists compiled : bool,
       log = (cleanup_log self
              ++ [E_fs_exists (p ++ "c") compiled;
                  E_yr_rules_load file rules0 code r;
                  E_PRINT_ERROR ("Could not load yara rules. (Yara Error 0x"
                                 ++ show_hex_int code ++ ")")])%list.
Proof.
  intros Hne Hrun Hin Hs Hi.
  enter_load h Hrun Hbody. not_in_cleanup Hin.
  exec h Hbody; injection Hbody as <- <- <- <-; in_log Hin;
    injection Hin as <- <- Hcode <-; try congruence;
    name_answers; repeat split; eexists; reflexivity.
Qed.

(** X4: when [yr_rules_load] answers a code that is neither the success
    code nor the invalid-file code, [load_rules] returns false, keeps the
    recorded path and the compiler handle, and after the clean-up makes just
    three calls: the look-up of the artifact, the load, and the diagnostic
    that shows the code in hexadecimal. *)
Theorem load_error_is_fatal {api : YaraApi} {W : Type} (h : handler W)
    (w w' : W) (self self' : Yara) (p : string) (res : bool) (log : list entry)
    (file : string) (rules0 r : ptr) (code : Z) :
  run h (load_rules self p) w = Some ((res, self'), w', log) ->
  In (E_yr_rules_load file rules0 code r) log ->
  code <> ERROR_SUCCESS ->
  code <> ERROR_INVALID_FILE ->
  res = false
  /\ _current_rules self' = _current_rules self
  /\ _compiler self' = _compiler self
  /\ exists compiled : bool,
       log = (cleanup_log self
              ++ [E_fs_exists (p ++ "c") compiled;
                  E_yr_rules_load file rules0 code r;
                  E_PRINT_ERROR ("Could not load yara rules. (Yara Error 0x"
                                 ++ show_hex_int code ++ ")")])%list.
Proof.
  intros Hrun Hin Hs Hi.
  destruct (String.eqb_spec (_current_rules self) p) as [Heq|Hne].
  - rewrite (load_rules_noop h w self p Heq) in Hrun.
    injection Hrun as _ _ _ <-. destruct Hin.
  - exact (load_error_shape h _ _ _ _ _ _ _ _ _ _ _ Hne Hrun Hin Hs Hi).
Qed.

(** X5: when the load answers the success code, the run consists of the
    clean-up, the look-up of the artifact and that load only: the rule
    source is neither opened nor compiled, and no artifact is written. *)
Theorem direct_load_skips_the_source {api : YaraApi} {W : Type} (h : handler W)
    (w w' : W) (self self' : Yara) (p : string) (res : bool) (log : list entry)
    (file : string) (rules0 r : ptr) :
  run h (load_rules self p) w = Some ((res, self'), w', log) ->
  In (E_yr_rules_load file rules0 ERROR_SUCCESS r) log ->
  exists compiled : bool,
    file = (if compiled then p ++ "c" else p)%string
    /\ log = (cleanup_log self
              ++ [E_fs_exists (p ++ "c") compiled;
                  E_yr_rules_load file (_rules self) ERROR_SUCCESS r])%list.
Proof.
  intros Hrun Hin.
  destruct (String.eqb_spec (_current_rules self) p) as [Heq|Hne].
  { rewrite (load_rules_noop h w self p Heq) in Hrun.
    injection Hrun as _ _ _ <-. destruct Hin. }
  enter_load h Hrun Hbody. not_in_cleanup Hin.
  exec h Hbody; injection Hbody as <- <- <- <-; in_log Hin;
    injection Hin as <- <- Hcode <-; try congruence;
    name_answers; eexists; (split; [|reflexivity]); reflexivity.
Qed.


Lemma cleanup_log_not_null (self : Yara) :
  ~ In (E_yr_compiler_destroy None) (cleanup_log self)
  /\ ~ In (E_yr_rules_destroy None) (cleanup_log self).
Proof.
  unfold cleanup_log.
  destruct (_compiler self); destruct (_rules self); cbn; split; intro H;
    repeat (destruct H as [H|H]; [discriminate H|]); exact H.
Qed.

(** X6: [load_rules] never hands a null pointer to [yr_compiler_destroy],
    [yr_rules_destroy] or [fclose], and never compiles from a null file. *)
Theorem load_rules_never_passes_null {api : YaraApi} {W : Type} (h : handler W)
    (w w' : W) (self self' : Yara) (p : string) (res : bool) (log : list entry) :
  run h (load_rules self p) w = Some ((res, self'), w', log) ->
  ~ In (E_yr_compiler_destroy None) log
  /\ ~ In (E_yr_rules_destroy None) log
  /\ ~ In (E_fclose None) log
  /\ (forall compiler code, ~ In (E_yr_compiler_add_file compiler None code) log).
Proof.
  intros Hrun.
  destruct (String.eqb_spec (_current_rules self) p) as [Heq|Hne].
  { rewrite (load_rules_noop h w self p Heq) in Hrun.
    injection Hrun as _ _ _ <-. repeat split; intros; intro Hin; destruct Hin. }
  destruct (cleanup_log_not_null self) as [Hc Hr].
  enter_load h Hrun Hbody.
  exec h Hbody; injection Hbody as <- <- <- <-;
    (split; [|split; [|split]]);
    try intros compiler code; intro Hin; apply in_app_or in Hin;
    (destruct Hin as [Hin|Hin];
     [ first [ exact (Hc Hin) | exact (Hr Hin)
             | apply cleanup_log_only_destroys in Hin; destruct Hin; discriminate ]
     | in_log Hin ]).
Qed.

(** X7: a [load_rules] that returns false leaves the recorded path as it
    was; after any call the recorded path is the old one, or it is the
    requested path and the call returned true. *)
Theorem failed_load_keeps_recorded_path {api : YaraApi} {W : Type} (h : handler W)
    (w w' : W) (self self' : Yara) (p : string) (res : bool) (log : list entry) :
  run h (load_rules self p) w = Some ((res, self'), w', log) ->
  (res = false -> _current_rules self' = _current_rules self)
  /\ (_current_rules self' = _current_rules self
      \/ (_current_rules self' = p /\ res = true)).
Proof.
  intros Hrun.
  destruct (String.eqb_spec (_current_rules self) p) as [Heq|Hne].
  { rewrite (load_rules_noop h w self p Heq) in Hrun.
    injection Hrun as <- <- _ _. split; [discriminate | now left]. }
  enter_load h Hrun Hbody.
  exec h Hbody; injection Hbody as <- <- <- <-;
    (split; [intro; try reflexivity; discriminate|]);
    first [left; reflexivity | right; split; reflexivity].
Qed.

(** X8: [load_rules] keeps a destroyed handle in its field.  When a call
    that held the compiler [c] fails at the load step, it has destroyed [c]
    first and still holds it, so the next call on a path other than the
    recorded one starts by destroying [c] a second time. *)
Theorem stale_compiler_is_destroyed_again {api : YaraApi} {W : Type} (h : handler W)
    (w0 w1 w2 : W) (self0 self1 self2 : Yara) (p1 p2 : string) (res1 res2 : bool)
    (log1 log2 : list entry) (c : handle) (file : string) (rules0 r : ptr) (code : Z) :
  run h (load_rules self0 p1) w0 = Some ((res1, self1), w1, log1) ->
  _compiler self0 = Some c ->
  In (E_yr_rules_load file rules0 code r) log1 ->
  code <> ERROR_SUCCESS ->
  code <> ERROR_INVALID_FILE ->
  p2 <> _current_rules self0 ->
  run h (load_rules self1 p2) w1 = Some ((res2, self2), w2, log2) ->
  (exists rest1, log1 = E_yr_compiler_destroy (Some c) :: rest1)
  /\ (exists rest2, log2 = E_yr_compiler_destroy (Some c) :: rest2).
Proof.
  intros Hrun1 Hc Hin Hs Hi Hp2 Hrun2.
  assert (Hne1 : _current_rules self0 <> p1).
  { intro Heq. rewrite (load_rules_noop h w0 self0 p1 Heq) in Hrun1.
    injection Hrun1 as _ _ _ <-. destruct Hin. }
  destruct (load_error_shape h _ _ _ _ _ _ _ _ _ _ _ Hne1 Hrun1 Hin Hs Hi)
    as [_ [Hcur [Hcomp [compiled Hlog1]]]].
  split.
  - rewrite Hlog1. unfold cleanup_log. rewrite Hc. cbn. eexists. reflexivity.
  - assert (Hne : _current_rules self1 <> p2) by congruence.
    destruct (load_rules_other_path h _ _ _ _ _ _ _ Hne Hrun2)
      as [[compiled2 [rest Hlog2]] _].
    rewrite Hlog2. unfold cleanup_log. rewrite Hcomp, Hc. cbn. eexists. reflexivity.
Qed.


(** ** The callback, event by event *)

(** One invocation of the callback with callback data: it makes only
    diagnostic calls; a rule-matched event appends the rule's [Match] and
    answers CALLBACK_CONTINUE, any other event leaves the callback data as it
    was. *)
Lemma callback_step {api : YaraApi} {W : Type} (h : handler W) (w w1 : W)
    (message code : Z) (md md' : message_data_t) (cb : callback_data)
    (data' : option callback_data) (l : list entry) :
  run h (get_match_data message md (Some cb)) w = Some ((code, md', data'), w1, l) ->
  Forall is_diagnostic l
  /\ ((exists rule m,
         message = CALLBACK_MSG_RULE_MATCHING /\ md = to_rule rule /\ md' = md
         /\ code = CALLBACK_CONTINUE
         /\ Match_of_rule rule = Some m
         /\ data' = Some {| yara_matches := (yara_matches cb ++ [m])%list;
                            pe_info := pe_info cb |})
      \/ (message <> CALLBACK_MSG_RULE_MATCHING /\ data' = Some cb)).
Proof.
  intro H. unfold get_match_data in H.
  destruct (Z.eqb_spec message CALLBACK_MSG_RULE_MATCHING) as [Hm|Hm].
  - destruct md as [rule| |]; try discriminate H.
    destruct (walk_metas (metas rule) new_Match) as [m0|] eqn:Hwalk;
      [|discriminate H].
    injection H as <- <- <- _ <-. split; [constructor|].
    left. exists rule, (walk_strings (strings rule) m0).
    repeat split; try assumption.
    unfold Match_of_rule. now rewrite Hwalk.
  - destruct md as [rule|mi|]; exec h H; try discriminate H;
      injection H as <- <- <- _ <-;
      (split;
       [ repeat constructor; eexists; first [left; reflexivity | right; reflexivity]
       | right; split; [assumption | reflexivity] ]).
Qed.

(** X11: an event other than a rule match leaves the callback data (the
    accumulated matches and the auxiliary data) as it was; the message data
    changes only on an "sgpe" import with auxiliary data, which is stored in
    the module-data slot. *)
Theorem other_events_keep_callback_data {api : YaraApi} {W : Type} (h : handler W)
    (w w1 : W) (message code : Z) (md md' : message_data_t) (cb : callback_data)
    (data' : option callback_data) (l : list entry) :
  message <> CALLBACK_MSG_RULE_MATCHING ->
  run h (get_match_data message md (Some cb)) w = Some ((code, md', data'), w1, l) ->
  data' = Some cb
  /\ (md' = md
      \/ exists (mi : YR_MODULE_IMPORT) (d : handle),
           message = CALLBACK_MSG_IMPORT_MODULE
           /\ md = to_module_import mi
           /\ module_name mi = "sgpe"%string
           /\ pe_info cb = Some d
           /\ md' = to_module_import {| module_name := "sgpe"; module_data := Some d |}).
Proof.
  intros Hm H. unfold get_match_data in H.
  destruct (Z.eqb_spec message CALLBACK_MSG_RULE_MATCHING) as [|_]; [contradiction|].
  destruct md as [rule|mi|]; exec h H; try discriminate H;
    injection H as <- <- <- _ <-; (split; [reflexivity|]);
    try (left; reflexivity).
  match goal with
  | E : (module_name mi =? "sgpe")%string = true |- _ => apply String.eqb_eq in E; rename E into Hname
  end.
  right. exists mi. eexists. rewrite Hname. repeat split; eassumption.
Qed.

(** X12: the callback answers the callback-error code, after exactly one
    error diagnostic and without touching the message data, only when its
    data pointer is null or on an "sgpe" import without auxiliary data; in
    every other case it answers CALLBACK_CONTINUE or the success code and
    logs no error. *)
Theorem callback_fails_only_without_data {api : YaraApi} {W : Type} (h : handler W)
    (w w1 : W) (message code : Z) (md md' : message_data_t)
    (data data' : option callback_data) (l : list entry) :
  run h (get_match_data message md data) w = Some ((code, md', data'), w1, l) ->
  (code = ERROR_CALLBACK_ERROR
   /\ (exists msg, l = [E_PRINT_ERROR msg])
   /\ md' = md
   /\ (data = None
       \/ exists cb mi,
            data = Some cb /\ message = CALLBACK_MSG_IMPORT_MODULE
            /\ md = to_module_import mi /\ module_name mi = "sgpe"%string
            /\ pe_info cb = None))
  \/ ((code = CALLBACK_CONTINUE \/ code = ERROR_SUCCESS)
      /\ data <> None
      /\ forall msg, ~ In (E_PRINT_ERROR msg) l).
Proof.
  intro H. unfold get_match_data in H.
  destruct data as [cb|].
  - destruct md as [rule|mi|];
      [destruct (walk_metas (metas rule) new_Match) as [m0|] | |];
      exec h H; try discriminate H;
      injection H as <- <- <- _ <-.
    all: try (right; split; [first [left; reflexivity | right; reflexivity]|];
              split; [discriminate|];
              intros msg Hin; in_log Hin).
    left. split; [reflexivity|]. split; [eexists; reflexivity|].
    split; [reflexivity|]. right. exists cb, mi.
    repeat split; try assumption; try reflexivity. now apply String.eqb_eq.
  - exec h H. injection H as <- <- <- _ <-.
    left. split; [reflexivity|]. split; [eexists; reflexivity|].
    split; [reflexivity|]. now left.
Qed.


(** ** Whole scans *)

Lemma matched_rules_cons {api : YaraApi} (message : Z) (md : message_data_t)
    (later : list (Z * message_data_t)) :
  matched_rules ((message, md) :: later)
  = (match md with
     | to_rule rule => if message =? CALLBACK_MSG_RULE_MATCHING then [rule] else []
     | _ => []
     end ++ matched_rules later)%list.
Proof. reflexivity. Qed.

(** The invariant of a conducted scan: the auxiliary data stays, the
    matches grow by one match per rule-matched invocation, in order, and the
    calls are diagnostics. *)
Lemma conduct_invariant {api : YaraApi} {W : Type} (h : handler W)
    (s : session) :
  forall (cb cb' : callback_data) (w w' : W) (retval : Z) (log : list entry),
    run h (conduct s cb) w = Some ((retval, cb'), w', log) ->
    pe_info cb' = pe_info cb
    /\ (exists (invocations : list (Z * message_data_t)) (added : list Match),
          callbacks h s cb w invocations
          /\ yara_matches cb' = (yara_matches cb ++ added)%list
          /\ Forall2 (fun rule m => Match_of_rule rule = Some m)
               (matched_rules invocations) added)
    /\ Forall is_diagnostic log.
Proof.
  induction s as [retval0|message md resume IH]; intros cb cb' w w' retval log H.
  - injection H as <- <- <- <-.
    split; [reflexivity|]. split; [|constructor].
    exists [], []. split; [constructor|]. split; [now rewrite app_nil_r | constructor].
  - cbn [conduct] in H. rewrite run_bind in H.
    destruct (run h (get_match_data message md (Some cb)) w)
      as [[[[[code md'] data'] w1] l1]|] eqn:Hcb; [|discriminate H].
    cbn [fst snd] in H.
    destruct (callback_step h _ _ _ _ _ _ _ _ _ Hcb) as [Hdiag Hstep].
    match type of H with
    | match ?r with _ => _ end = _ =>
        destruct r as [[[[r0 cb2] w2] l2]|] eqn:Hrest; [|discriminate H]
    end.
    injection H as <- <- <- <-.
    destruct (IH _ _ _ _ _ _ _ _ Hrest) as [Hpe [[later [added [Hcalls [Hm Hbuilt]]]] Hd2]].
    pose proof (callbacks_next h message md resume cb w w1 code md' data' l1 later
                  Hcb Hcalls) as Hall.
    destruct Hstep as [[rule [m [Hmsg [-> [_ [_ [Hbuild ->]]]]]]]|[Hmsg ->]];
      cbn in Hpe, Hm.
    + split; [exact Hpe|]. split; [|now apply Forall_app].
      exists ((message, to_rule rule) :: later), (m :: added).
      split; [exact Hall|]. split.
      * rewrite Hm. now rewrite <- app_assoc.
      * rewrite matched_rules_cons, Hmsg, Z.eqb_refl. cbn [app].
        constructor; assumption.
    + split; [exact Hpe|]. split; [|now apply Forall_app].
      exists ((message, md) :: later), added.
      split; [exact Hall|]. split; [exact Hm|].
      rewrite matched_rules_cons.
      destruct md as [rule|mi|]; cbn [app]; try exact Hbuilt.
      destruct (Z.eqb_spec message CALLBACK_MSG_RULE_MATCHING) as [|_];
        [contradiction | exact Hbuilt].
Qed.

(** X13: whatever the engine does during a scan call conducted with the
    callback, what the call hands back keeps the auxiliary data, keeps every
    match accumulated before in its place, and adds exactly one match per
    rule-matched invocation of the callback, in the order of the
    invocations; the log is the scan call followed by diagnostics only. *)
Theorem scan_accumulates_matched_rules {api : YaraApi} {W : Type} (h : handler W)
    (c : call session) (cb accumulated : callback_data) (w w' : W) (retval : Z)
    (log : list entry) :
  run h (s <- perform c ;; conduct s cb) w = Some ((retval, accumulated), w', log) ->
  pe_info accumulated = pe_info cb
  /\ (exists (invocations : list (Z * message_data_t)) (added : list Match),
        callbacks h (fst (h _ c w)) cb (snd (h _ c w)) invocations
        /\ yara_matches accumulated = (yara_matches cb ++ added)%list
        /\ Forall2 (fun rule m => Match_of_rule rule = Some m)
             (matched_rules invocations) added)
  /\ (exists rest : list entry,
        log = describe c (fst (h _ c w)) :: rest /\ Forall is_diagnostic rest).
Proof.
  intro H. cbn [run bind perform] in H.
  destruct (h session c w) as [s w1]. cbn [fst snd].
  destruct (run h (conduct s cb) w1) as [[[a w3] l]|] eqn:Hc; [|discriminate H].
  destruct a as [r acc]. injection H as <- <- <- <-.
  destruct (conduct_invariant h s _ _ _ _ _ _ Hc) as [Hpe [Hadded Hdiag]].
  split; [exact Hpe|]. split; [exact Hadded|].
  exists l. split; [reflexivity | exact Hdiag].
Qed.

(** X14: with a rule set loaded, when the engine's scan call returns the
    success code, [scan_bytes] (on a non-empty buffer) and [scan_file]
    return exactly the matches the callback accumulated; the run starts with
    the single scan call, on the loaded rule set, with the whole buffer, its
    length, the process-memory flag and no timeout, and is followed by
    diagnostics only. *)
Theorem successful_scan_returns_accumulated_matches {api : YaraApi} {W : Type}
    (h : handler W) (w : W) (self : Yara) :
  _rules self <> None ->
  (forall (bytes : list byte) (accumulated : callback_data),
     bytes <> [] ->
     engine_outcome h
       (yr_rules_scan_mem (_rules self) bytes (Z.of_nat (List.length bytes))
          SCAN_FLAGS_PROCESS_MEMORY 0)
       {| yara_matches := []; pe_info := None |} w
     = Some (ERROR_SUCCESS, accumulated) ->
     exists (w' : W) (log : list entry),
       run h (scan_bytes self bytes) w
       = Some (yara_matches accumulated, w',
               E_yr_rules_scan_mem (_rules self) bytes (Z.of_nat (List.length bytes))
                 SCAN_FLAGS_PROCESS_MEMORY 0 :: log)
       /\ Forall is_diagnostic log)
  /\ (forall (path : string) (pe_data : ptr) (accumulated : callback_data),
        engine_outcome h
          (yr_rules_scan_file (_rules self) path SCAN_FLAGS_PROCESS_MEMORY 0)
          {| yara_matches := []; pe_info := pe_data |} w
        = Some (ERROR_SUCCESS, accumulated) ->
        exists (w' : W) (log : list entry),
          run h (scan_file self path pe_data) w
          = Some (yara_matches accumulated, w',
                  E_yr_rules_scan_file (_rules self) path SCAN_FLAGS_PROCESS_MEMORY 0
                    :: log)
          /\ Forall is_diagnostic log).
Proof.
  intro Hrules. destruct (_rules self) as [r|] eqn:Er; [clear Hrules|contradiction].
  split.
  - intros bytes acc Hbytes Hout. unfold scan_bytes. rewrite Er. cbn [is_null orb].
    destruct (Z.eqb_spec (Z.of_nat (List.length bytes)) 0) as [Hz|_].
    { destruct bytes; [contradiction | discriminate Hz]. }
    unfold engine_outcome in Hout. cbn [run bind perform].
    destruct (h session _ w) as [s w1].
    rewrite run_bind.
    destruct (run h (conduct s _) w1) as [[[a w2] l]|] eqn:Hc; [|discriminate].
    injection Hout as ->. cbn [fst snd]. rewrite Z.eqb_refl. cbn.
    destruct (conduct_invariant h s _ _ _ _ _ _ Hc) as [_ [_ Hd]].
    exists w2, (l ++ [])%list. split; [reflexivity|].
    now rewrite app_nil_r.
  - intros path pe_data acc Hout. unfold scan_file. rewrite Er. cbn [is_null].
    unfold engine_outcome in Hout. cbn [run bind perform].
    destruct (h session _ w) as [s w1].
    rewrite run_bind.
    destruct (run h (conduct s _) w1) as [[[a w2] l]|] eqn:Hc; [|discriminate].
    injection Hout as ->. cbn [fst snd]. rewrite Z.eqb_refl. cbn.
    destruct (conduct_invariant h s _ _ _ _ _ _ Hc) as [_ [_ Hd]].
    exists w2, (l ++ [])%list. split; [reflexivity|].
    now rewrite app_nil_r.
Qed.

(** X15: what [scan_bytes] or [scan_file] returns is empty, or it is
    exactly one match per rule-matched invocation of the callback that the
    engine made during that scan call, in the order of the invocations, each
    built from the rule of its invocation. *)
Theorem scan_results_are_matched_rules {api : YaraApi} {W : Type}
    (h : handler W) (w w' : W) (self : Yara) (log : list entry)
    (result : list Match) :
  (forall bytes : list byte,
     let c := yr_rules_scan_mem (_rules self) bytes (Z.of_nat (List.length bytes))
                SCAN_FLAGS_PROCESS_MEMORY 0 in
     run h (scan_bytes self bytes) w = Some (result, w', log) ->
     result = []
     \/ exists invocations : list (Z * message_data_t),
          callbacks h (fst (h _ c w)) {| yara_matches := []; pe_info := None |}
            (snd (h _ c w)) invocations
          /\ Forall2 (fun rule m => Match_of_rule rule = Some m)
               (matched_rules invocations) result)
  /\ (forall (path : string) (pe_data : ptr),
        let c := yr_rules_scan_file (_rules self) path SCAN_FLAGS_PROCESS_MEMORY 0 in
        run h (scan_file self path pe_data) w = Some (result, w', log) ->
        result = []
        \/ exists invocations : list (Z * message_data_t),
             callbacks h (fst (h _ c w)) {| yara_matches := []; pe_info := pe_data |}
               (snd (h _ c w)) invocations
             /\ Forall2 (fun rule m => Match_of_rule rule = Some m)
                  (matched_rules invocations) result).
Proof.
  split.
  - intros bytes c H. subst c. unfold scan_bytes in H.
    destruct (_rules self) as [r|]; cbn [is_null orb] in H.
    + destruct (Z.eqb_spec (Z.of_nat (List.length bytes)) 0) as [Hz|_].
      { cbn in H. injection H as <- _ _. now left. }
      cbn [run bind perform] in H.
      destruct (h session _ w) as [s w1]. cbn [fst snd].
      rewrite run_bind in H.
      destruct (run h (conduct s _) w1) as [[[a w2] l]|] eqn:Hc; [|discriminate H].
      destruct a as [retval acc].
      destruct (conduct_invariant h s _ _ _ _ _ _ Hc)
        as [_ [[invocations [added [Hcalls [Hm Hbuilt]]]] _]].
      cbn [fst snd] in H.
      destruct (Z.eqb_spec retval ERROR_SUCCESS); cbn in H.
      * injection H as <- _ _. right. exists invocations.
        split; [exact Hcalls|]. cbn in Hm. now rewrite Hm.
      * destruct (h unit _ w2) as [[] w3]. injection H as <- _ _. now left.
    + cbn in H. destruct (h unit _ w) as [[] w1]. injection H as <- _ _. now left.
  - intros path pe_data c H. subst c. unfold scan_file in H.
    destruct (_rules self) as [r|]; cbn [is_null] in H.
    + cbn [run bind perform] in H.
      destruct (h session _ w) as [s w1]. cbn [fst snd].
      rewrite run_bind in H.
      destruct (run h (conduct s _) w1) as [[[a w2] l]|] eqn:Hc; [|discriminate H].
      destruct a as [retval acc].
      destruct (conduct_invariant h s _ _ _ _ _ _ Hc)
        as [_ [[invocations [added [Hcalls [Hm Hbuilt]]]] _]].
      cbn [fst snd] in H.
      destruct (Z.eqb_spec retval ERROR_SUCCESS); cbn in H.
      * injection H as <- _ _. right. exists invocations.
        split; [exact Hcalls|]. cbn in Hm. now rewrite Hm.
      * destruct (h unit _ w2) as [[] w3]. injection H as <- _ _. now left.
    + cbn in H. destruct (h unit _ w) as [[] w1]. injection H as <- _ _. now left.
Qed.

(** ** Rules with metas that have no string *)

(** X16: a rule-matched event returns exactly when every meta of the rule
    has a string: then, under every handler, the callback makes no call,
    answers CALLBACK_CONTINUE, leaves the message data and the auxiliary data
    as they were and appends exactly one Match after the matches accumulated
    so far; when some meta has none (an integer or boolean meta) the callback
    has no result. *)
Theorem rule_event_needs_string_metas {api : YaraApi} {W : Type} (h : handler W)
    (w : W) (rule : YR_RULE) (cb_data : callback_data) :
  (metas_have_strings rule = true ->
   exists m : Match,
     run h (get_match_data CALLBACK_MSG_RULE_MATCHING (to_rule rule) (Some cb_data)) w
     = Some ((CALLBACK_CONTINUE, to_rule rule,
              Some {| yara_matches := (yara_matches cb_data ++ [m])%list;
                      pe_info := pe_info cb_data |}), w, [])
     /\ Match_of_rule rule = Some m)
  /\ (metas_have_strings rule = false ->
      run h (get_match_data CALLBACK_MSG_RULE_MATCHING (to_rule rule) (Some cb_data)) w
      = None
      /\ Match_of_rule rule = None).
Proof.
  unfold get_match_data, metas_have_strings, Match_of_rule. rewrite Z.eqb_refl.
  split; intro H.
  - destruct (walk_metas_returns (metas rule) new_Match H) as [m0 Hm0].
    rewrite Hm0. exists (walk_strings (strings rule) m0). split; reflexivity.
  - rewrite (walk_metas_throws (metas rule) new_Match H). split; reflexivity.
Qed.

(** ** The size and the content of a hex preview *)

Lemma length_append (a b : string) :
  String.length (a ++ b) = (String.length a + String.length b)%nat.
Proof. induction a as [|x a IH]; simpl; [reflexivity | now rewrite IH]. Qed.

Lemma unpadded_hex_length (b : byte) :
  (1 <= String.length (unpadded_hex b) <= 2)%nat.
Proof. destruct b; cbn; lia. Qed.

Lemma join_hex_length (l : list byte) :
  (2 * List.length l
   <= String.length (join (map (fun b => (unpadded_hex b ++ " ")%string) l))
   <= 3 * List.length l)%nat.
Proof.
  induction l as [|b l IH]; [cbn; lia|].
  cbn [map join fold_right List.length]. fold (join (map (fun b => (unpadded_hex b ++ " ")%string) l)).
  rewrite !length_append. pose proof (unpadded_hex_length b). cbn [String.length]. lia.
Qed.

(** X17: the hex preview of a match takes between two and three
    characters per shown byte (at most 20 bytes are shown), plus three for
    the marker of a longer match; it is never longer than 63 characters. *)
Theorem hex_excerpt_is_bounded (mt : YR_MATCH) :
  let shown := Nat.min 20 (List.length (match_data mt)) in
  let marker := if (20 <? List.length (match_data mt))%nat then 3%nat else 0%nat in
  (2 * shown + marker <= String.length (hex_excerpt mt) <= 3 * shown + marker)%nat
  /\ (String.length (hex_excerpt mt) <= 63)%nat.
Proof.
  cbv zeta. rewrite hex_excerpt_unpadded. unfold unpadded_hex_excerpt, truncation_marker.
  rewrite length_append.
  pose proof (join_hex_length (firstn 20 (match_data mt))) as H.
  rewrite length_firstn in H.
  destruct (Nat.ltb_spec 20 (List.length (match_data mt))); cbn [String.length]; lia.
Qed.

Lemma read_one_value (b : byte) (rest : string) :
  read_hex_excerpt None (unpadded_hex b ++ " " ++ rest)
  = option_map (cons b) (read_hex_excerpt None rest).
Proof. destruct b; reflexivity. Qed.

Lemma read_joined_values (l : list byte) (rest : string) :
  read_hex_excerpt None rest = Some [] ->
  read_hex_excerpt None (join (map (fun b => (unpadded_hex b ++ " ")%string) l) ++ rest)
  = Some l.
Proof.
  intro Hrest. induction l as [|b l IH]; [exact Hrest|].
  cbn [map join fold_right]. fold (join (map (fun b => (unpadded_hex b ++ " ")%string) l)).
  rewrite !append_assoc, read_one_value, IH. reflexivity.
Qed.

(** X18: the hex preview determines the bytes it shows: reading the values
    back gives the first 20 matched bytes, although values below 0x10 are
    not padded. *)
Theorem hex_excerpt_reads_back (mt : YR_MATCH) :
  read_hex_excerpt None (hex_excerpt mt) = Some (firstn 20 (match_data mt)).
Proof.
  rewrite hex_excerpt_unpadded. unfold unpadded_hex_excerpt, truncation_marker.
  apply read_joined_values.
  destruct (20 <? List.length (match_data mt))%nat; reflexivity.
Qed.


(** ** Lifetimes *)

Lemma dtor_runs {W : Type} (h : handler W) (self : Yara) (n : Z) (w : W) :
  exists w1 : W,
    run h (Yara_dtor self n) w
    = Some ((n - 1, if n - 1 =? 0 then [yr_finalize] else []), w1, cleanup_log self).
Proof.
  unfold Yara_dtor. rewrite run_bind.
  destruct (@clean_runs yara_h W h self w) as [w1 Hc]. rewrite Hc.
  exists w1. cbn [run]. now rewrite app_nil_r.
Qed.

Lemma engine_up_cons (up : bool) (c : global_call) (calls : list global_call) :
  engine_up up (c :: calls)
  = engine_up (match c with yr_initialize => true | yr_finalize => false end) calls.
Proof. reflexivity. Qed.

(** X19: for any sequence of constructions and destructions that never
    destroys a scanner when none is alive (and stays below 2^31 instances),
    the instance count is the number of live scanners, [yr_initialize] and
    [yr_finalize] strictly alternate, and the engine is initialised exactly
    while at least one scanner is alive. *)
Theorem engine_is_up_while_scanners_live {W : Type} (h : handler W)
    (steps : list lifetime_step) :
  forall (count : Z) (w : W),
    0 <= count ->
    count + Z.of_nat (List.length steps) < 2 ^ 31 ->
    well_nested steps count = true ->
    exists (n : Z) (calls : list global_call) (w' : W) (log : list entry),
      run h (lifetimes steps count) w = Some ((n, calls), w', log)
      /\ n = count + live_change steps
      /\ 0 <= n < 2 ^ 31
      /\ alternate (0 <? count) calls = true
      /\ engine_up (0 <? count) calls = (0 <? n).
Proof.
  induction steps as [|step rest IH]; intros count w Hc Hb Hwn.
  - exists count, [], w, []. cbn. repeat split; lia.
  - cbn [List.length] in Hb. destruct step as [|self].
    + cbn [well_nested] in Hwn.
      destruct (IH (count + 1) w) as [n [calls [w' [log [Hrun [Hn [Hr [Ha Hu]]]]]]]];
        [lia | lia | exact Hwn |].
      cbn [lifetimes Yara_ctor fst snd]. rewrite run_bind, Hrun. cbn [run fst snd].
      exists n, ((if count =? 0 then [yr_initialize] else []) ++ calls)%list, w',
        (log ++ [])%list.
      split; [reflexivity|]. split; [cbn [live_change]; lia|]. split; [exact Hr|].
      replace (0 <? count + 1) with true in Ha, Hu by (symmetry; apply Z.ltb_lt; lia).
      destruct (Z.eqb_spec count 0) as [->|Hnz].
      * cbn [app alternate negb andb Z.ltb Z.compare]. rewrite engine_up_cons.
        split; assumption.
      * cbn [app]. replace (0 <? count) with true by (symmetry; apply Z.ltb_lt; lia).
        split; assumption.
    + cbn [well_nested] in Hwn. apply andb_prop in Hwn. destruct Hwn as [Hlive Hwn].
      apply Z.ltb_lt in Hlive.
      destruct (dtor_runs h self count w) as [w1 Hd].
      destruct (IH (count - 1) w1) as [n [calls [w' [log [Hrun [Hn [Hr [Ha Hu]]]]]]]];
        [lia | lia | exact Hwn |].
      cbn [lifetimes]. rewrite run_bind, Hd. cbn [fst snd].
      rewrite run_bind, Hrun. cbn [run fst snd].
      exists n, ((if count - 1 =? 0 then [yr_finalize] else []) ++ calls)%list, w',
        (cleanup_log self ++ log ++ [])%list.
      split; [reflexivity|]. split; [cbn [live_change]; lia|]. split; [exact Hr|].
      replace (0 <? count) with true by (symmetry; apply Z.ltb_lt; lia).
      destruct (Z.eqb_spec (count - 1) 0) as [Hz|Hnz].
      * rewrite Hz in Ha, Hu. cbn [app alternate andb]. rewrite engine_up_cons.
        split; assumption.
      * cbn [app].
        replace (0 <? count - 1) with true in Ha, Hu by (symmetry; apply Z.ltb_lt; lia).
        split; assumption.
Qed.


(** ** The order of the steps of a load *)

(** X9: a run of [load_rules] calls [yr_rules_load] once, right after
    the look-up of the artifact: on [p ++ "c"] when the artifact exists and
    on [p] itself otherwise, with the rule-set field as the clean-up left
    it. *)
Theorem artifact_is_preferred {api : YaraApi} {W : Type} (h : handler W)
    (w w' : W) (self self' : Yara) (p : string) (res : bool) (log : list entry)
    (file : string) (rules0 r : ptr) (code : Z) :
  run h (load_rules self p) w = Some ((res, self'), w', log) ->
  In (E_yr_rules_load file rules0 code r) log ->
  exists (compiled : bool) (rest : list entry),
    log = (cleanup_log self
           ++ E_fs_exists (p ++ "c") compiled
              :: E_yr_rules_load file rules0 code r :: rest)%list
    /\ file = (if compiled then p ++ "c" else p)%string
    /\ rules0 = _rules self
    /\ forall file' rules0' code' r', ~ In (E_yr_rules_load file' rules0' code' r') rest.
Proof.
  intros Hrun Hin.
  destruct (String.eqb_spec (_current_rules self) p) as [Heq|Hne].
  { rewrite (load_rules_noop h w self p Heq) in Hrun.
    injection Hrun as _ _ _ <-. destruct Hin. }
  enter_load h Hrun Hbody. not_in_cleanup Hin.
  exec h Hbody; injection Hbody as <- <- <- <-; in_log Hin;
    injection Hin as <- <- <- <-;
    eexists; eexists; (split; [reflexivity|]); (split; [reflexivity|]);
    (split; [reflexivity|]);
    intros file' rules0' code' r' Hin'; in_log Hin'.
Qed.

(** X10: an artifact is saved only at the end of the compile path: the
    load answered the invalid-file code, the compiler was created, the source
    [p] was opened, compiled and turned into rules, each with the success
    code; the artifact goes to [p ++ "c"], the file is closed afterwards, and
    the scanner holds the compiler and the compiled rule set whatever the
    save answers. *)
Theorem artifact_is_saved_after_every_step {api : YaraApi} {W : Type} (h : handler W)
    (w w' : W) (self self' : Yara) (p : string) (res : bool) (log : list entry)
    (saved : ptr) (artifact : string) (code : Z) :
  run h (load_rules self p) w = Some ((res, self'), w', log) ->
  In (E_yr_rules_save saved artifact code) log ->
  exists (compiled : bool) (file : string) (loaded compiler : ptr) (fh : handle),
    log = (cleanup_log self
           ++ [E_fs_exists (p ++ "c") compiled;
               E_yr_rules_load file (_rules self) ERROR_INVALID_FILE loaded;
               E_yr_compiler_create (_compiler self) ERROR_SUCCESS compiler;
               E_fopen p "r" (Some fh);
               E_yr_compiler_add_file compiler (Some fh) ERROR_SUCCESS;
               E_yr_compiler_get_rules compiler loaded ERROR_SUCCESS saved;
               E_yr_rules_save saved (p ++ "c") code;
               E_fclose (Some fh)])%list
    /\ artifact = (p ++ "c")%string
    /\ _compiler self' = compiler
    /\ _rules self' = saved.
Proof.
  intros Hrun Hin.
  destruct (String.eqb_spec (_current_rules self) p) as [Heq|Hne].
  { rewrite (load_rules_noop h w self p Heq) in Hrun.
    injection Hrun as _ _ _ <-. destruct Hin. }
  enter_load h Hrun Hbody. not_in_cleanup Hin.
  exec h Hbody; injection Hbody as <- <- <- <-; in_log Hin;
    injection Hin as <- <- <-;
    name_answers; do 5 eexists; (split; [reflexivity|]); repeat split.
Qed.

Lemma artifact_is_preferred_witness :
  run (play precompiled_world) (@load_rules yara_h Yara_new "rules.yara") tt
  = Some ((true, Yara_loaded), tt, direct_load_log None)
  /\ In (E_yr_rules_load "rules.yarac" None 0 (Some 1%positive)) (direct_load_log None)
  /\ exists (compiled : bool) (rest : list entry),
       direct_load_log None
       = (cleanup_log Yara_new
          ++ E_fs_exists ("rules.yara" ++ "c") compiled
             :: E_yr_rules_load "rules.yarac" None 0 (Some 1%positive) :: rest)%list
       /\ "rules.yarac"%string = (if compiled then "rules.yara" ++ "c" else "rules.yara")%string
       /\ None = _rules Yara_new
       /\ forall file' rules0' code' r',
            ~ In (E_yr_rules_load file' rules0' code' r') rest.
Proof.
  assert (Hin : In (E_yr_rules_load "rules.yarac" None 0 (Some 1%positive))
                  (direct_load_log None)) by (cbn; tauto).
  split; [reflexivity|]. split; [exact Hin|].
  exact (artifact_is_preferred (api := yara_h) (play precompiled_world)
           tt tt Yara_new Yara_loaded "rules.yara" true (direct_load_log None)
           "rules.yarac" None (Some 1%positive) 0 eq_refl Hin).
Defined.

Lemma artifact_is_saved_after_every_step_witness :
  run (play (source_world 3)) (@load_rules yara_h Yara_new "a.yara") tt
  = Some ((false, Yara_unsaved), tt, compile_a_log 3)
  /\ In (E_yr_rules_save (Some 4%positive) "a.yarac" 3) (compile_a_log 3)
  /\ exists (compiled : bool) (file : string) (loaded compiler : ptr) (fh : handle),
       compile_a_log 3
       = (cleanup_log Yara_new
          ++ [E_fs_exists ("a.yara" ++ "c") compiled;
              E_yr_rules_load file (_rules Yara_new) 6 loaded;
              E_yr_compiler_create (_compiler Yara_new) 0 compiler;
              E_fopen "a.yara" "r" (Some fh);
              E_yr_compiler_add_file compiler (Some fh) 0;
              E_yr_compiler_get_rules compiler loaded 0 (Some 4%positive);
              E_yr_rules_save (Some 4%positive) ("a.yara" ++ "c") 3;
              E_fclose (Some fh)])%list
       /\ "a.yarac"%string = ("a.yara" ++ "c")%string
       /\ _compiler Yara_unsaved = compiler
       /\ _rules Yara_unsaved = Some 4%positive.
Proof.
  assert (Hin : In (E_yr_rules_save (Some 4%positive) "a.yarac" 3) (compile_a_log 3))
    by (cbn; tauto).
  split; [reflexivity|]. split; [exact Hin|].
  exact (artifact_is_saved_after_every_step (api := yara_h) (play (source_world 3))
           tt tt Yara_new Yara_unsaved "a.yara" false (compile_a_log 3)
           (Some 4%positive) "a.yarac" 3 eq_refl Hin).
Defined.


(** * Witnesses of the further properties *)

Lemma saved_load_is_recorded_and_cached_witness :
  run (play (source_world 0)) (@load_rules yara_h Yara_new "a.yara") tt
  = Some ((true, Yara_a), tt, compile_a_log 0)
  /\ In (E_yr_rules_save (Some 4%positive) "a.yarac" 0) (compile_a_log 0)
  /\ _current_rules Yara_a = "a.yara"%string
  /\ _rules Yara_a = Some 4%positive
  /\ run (play (source_world 3)) (@load_rules yara_h Yara_a "a.yara") tt
     = Some ((true, Yara_a), tt, []).
Proof.
  assert (Hin : In (E_yr_rules_save (Some 4%positive) "a.yarac" 0) (compile_a_log 0))
    by (cbn; tauto).
  split; [reflexivity|]. split; [exact Hin|].
  destruct (saved_load_is_recorded_and_cached (api := yara_h) (play (source_world 0))
              tt tt Yara_new Yara_a "a.yara" true (compile_a_log 0)
              (Some 4%positive) "a.yarac" eq_refl Hin)
    as [_ [Hcur [Hrules [_ Hnoop]]]].
  split; [exact Hcur|]. split; [exact Hrules|].
  exact (Hnoop unit (play (source_world 3)) tt).
Defined.

Lemma load_rules_success_means_loaded_witness :
  _current_rules Yara_new <> "a.yara"%string
  /\ run (play (source_world 0)) (@load_rules yara_h Yara_new "a.yara") tt
     = Some ((true, Yara_a), tt, compile_a_log 0)
  /\ (true = true <->
      (exists file rules0 r, In (E_yr_rules_load file rules0 0 r) (compile_a_log 0))
      \/ (exists saved artifact, In (E_yr_rules_save saved artifact 0) (compile_a_log 0))).
Proof.
  assert (Hne : _current_rules Yara_new <> "a.yara"%string) by discriminate.
  split; [exact Hne|]. split; [reflexivity|].
  exact (load_rules_success_means_loaded (api := yara_h) (play (source_world 0))
           tt tt Yara_new Yara_a "a.yara" true (compile_a_log 0) Hne eq_refl).
Defined.

Lemma opened_rule_file_is_closed_witness :
  run (play (source_world 0)) (@load_rules yara_h Yara_new "a.yara") tt
  = Some ((true, Yara_a), tt, compile_a_log 0)
  /\ In (E_fopen "a.yara" "r" (Some 3%positive)) (compile_a_log 0)
  /\ ((Some 3%positive = None /\ true = false
       /\ forall f, ~ In (E_fclose f) (compile_a_log 0))
      \/ exists before,
           compile_a_log 0 = (before ++ [E_fclose (Some 3%positive)])%list
           /\ forall f, ~ In (E_fclose f) before).
Proof.
  assert (Hin : In (E_fopen "a.yara" "r" (Some 3%positive)) (compile_a_log 0))
    by (cbn; tauto).
  split; [reflexivity|]. split; [exact Hin|].
  destruct (opened_rule_file_is_closed (api := yara_h) (play (source_world 0))
              tt tt Yara_new Yara_a "a.yara" true (compile_a_log 0) eq_refl)
    as [Hopen _].
  exact (proj2 (proj2 (Hopen _ _ _ Hin))).
Defined.

Lemma load_error_is_fatal_witness :
  let log := (E_yr_compiler_destroy (Some 2%positive)
              :: E_yr_rules_destroy (Some 4%positive) :: failed_b_log) in
  run (play (source_world 0)) (@load_rules yara_h Yara_a "b.yara") tt
  = Some ((false, Yara_a), tt, log)
  /\ In (E_yr_rules_load "b.yara" (Some 4%positive) 3 (Some 4%positive)) log
  /\ 3 <> 0 /\ 3 <> 6
  /\ exists compiled : bool,
       log = (cleanup_log Yara_a
              ++ [E_fs_exists "b.yarac" compiled;
                  E_yr_rules_load "b.yara" (Some 4%positive) 3 (Some 4%positive);
                  E_PRINT_ERROR ("Could not load yara rules. (Yara Error 0x"
                                 ++ show_hex_int 3 ++ ")")])%list.
Proof.
  intro log.
  assert (Hin : In (E_yr_rules_load "b.yara" (Some 4%positive) 3 (Some 4%positive)) log)
    by (cbn; tauto).
  assert (H3 : 3 <> 0) by discriminate.
  assert (H6 : 3 <> 6) by discriminate.
  split; [reflexivity|]. split; [exact Hin|]. split; [exact H3|]. split; [exact H6|].
  exact (proj2 (proj2 (proj2
           (load_error_is_fatal (api := yara_h) (play (source_world 0))
              tt tt Yara_a Yara_a "b.yara" false log "b.yara"
              (Some 4%positive) (Some 4%positive) 3 eq_refl Hin H3 H6)))).
Defined.

Lemma direct_load_skips_the_source_witness :
  run (play precompiled_world) (@load_rules yara_h Yara_new "rules.yara") tt
  = Some ((true, Yara_loaded), tt, direct_load_log None)
  /\ In (E_yr_rules_load "rules.yarac" None 0 (Some 1%positive)) (direct_load_log None)
  /\ exists compiled : bool,
       "rules.yarac"%string = (if compiled then "rules.yara" ++ "c" else "rules.yara")%string
       /\ direct_load_log None
          = (cleanup_log Yara_new
             ++ [E_fs_exists ("rules.yara" ++ "c") compiled;
                 E_yr_rules_load "rules.yarac" (_rules Yara_new) 0 (Some 1%positive)])%list.
Proof.
  assert (Hin : In (E_yr_rules_load "rules.yarac" None 0 (Some 1%positive))
                  (direct_load_log None)) by (cbn; tauto).
  split; [reflexivity|]. split; [exact Hin|].
  exact (direct_load_skips_the_source (api := yara_h) (play precompiled_world)
           tt tt Yara_new Yara_loaded "rules.yara" true (direct_load_log None)
           "rules.yarac" None (Some 1%positive) eq_refl Hin).
Defined.

Lemma load_rules_never_passes_null_witness :
  run (play (source_world 0)) (@load_rules yara_h Yara_new "a.yara") tt
  = Some ((true, Yara_a), tt, compile_a_log 0)
  /\ ~ In (E_yr_compiler_destroy None) (compile_a_log 0)
  /\ ~ In (E_yr_rules_destroy None) (compile_a_log 0)
  /\ ~ In (E_fclose None) (compile_a_log 0)
  /\ (forall compiler code,
        ~ In (E_yr_compiler_add_file compiler None code) (compile_a_log 0)).
Proof.
  split; [reflexivity|].
  exact (load_rules_never_passes_null (api := yara_h) (play (source_world 0))
           tt tt Yara_new Yara_a "a.yara" true (compile_a_log 0) eq_refl).
Defined.

Lemma failed_load_keeps_recorded_path_witness :
  run (play (source_world 0)) (@load_rules yara_h Yara_a "b.yara") tt
  = Some ((false, Yara_a), tt,
          E_yr_compiler_destroy (Some 2%positive)
          :: E_yr_rules_destroy (Some 4%positive) :: failed_b_log)
  /\ (false = false -> _current_rules Yara_a = _current_rules Yara_a)
  /\ (_current_rules Yara_a = _current_rules Yara_a
      \/ (_current_rules Yara_a = "b.yara"%string /\ false = true)).
Proof.
  split; [reflexivity|].
  exact (failed_load_keeps_recorded_path (api := yara_h) (play (source_world 0))
           tt tt Yara_a Yara_a "b.yara" false _ eq_refl).
Defined.

Lemma stale_compiler_is_destroyed_again_witness :
  let log := (E_yr_compiler_destroy (Some 2%positive)
              :: E_yr_rules_destroy (Some 4%positive) :: failed_b_log) in
  run (play (source_world 0)) (@load_rules yara_h Yara_a "b.yara") tt
  = Some ((false, Yara_a), tt, log)
  /\ _compiler Yara_a = Some 2%positive
  /\ In (E_yr_rules_load "b.yara" (Some 4%positive) 3 (Some 4%positive)) log
  /\ 3 <> 0 /\ 3 <> 6
  /\ "b.yara"%string <> _current_rules Yara_a
  /\ (exists rest1, log = E_yr_compiler_destroy (Some 2%positive) :: rest1)
  /\ (exists rest2, log = E_yr_compiler_destroy (Some 2%positive) :: rest2).
Proof.
  intro log.
  assert (Hin : In (E_yr_rules_load "b.yara" (Some 4%positive) 3 (Some 4%positive)) log)
    by (cbn; tauto).
  assert (H3 : 3 <> 0) by discriminate.
  assert (H6 : 3 <> 6) by discriminate.
  assert (Hp : "b.yara"%string <> _current_rules Yara_a) by discriminate.
  split; [reflexivity|]. split; [reflexivity|]. split; [exact Hin|].
  split; [exact H3|]. split; [exact H6|]. split; [exact Hp|].
  exact (stale_compiler_is_destroyed_again (api := yara_h) (play (source_world 0))
           tt tt tt Yara_a Yara_a Yara_a "b.yara" "b.yara" false false log log
           2%positive "b.yara" (Some 4%positive) (Some 4%positive) 3
           eq_refl eq_refl Hin H3 H6 Hp eq_refl).
Defined.

Lemma other_events_keep_callback_data_witness :
  let mi := {| module_name := "sgpe"; module_data := None |} in
  let cb := {| yara_matches := two_matches; pe_info := Some 7%positive |} in
  4 <> 1
  /\ run (play matching_world) (@get_match_data yara_h 4 (to_module_import mi) (Some cb)) tt
     = Some ((0, to_module_import {| module_name := "sgpe";
                                     module_data := Some 7%positive |}, Some cb), tt, [])
  /\ Some cb = Some cb.
Proof.
  intros mi cb.
  assert (Hm : 4 <> 1) by discriminate.
  split; [exact Hm|]. split; [reflexivity|].
  exact (proj1 (other_events_keep_callback_data (api := yara_h) (play matching_world)
                  tt tt 4 0 (to_module_import mi) _ cb (Some cb) [] Hm eq_refl)).
Defined.

Lemma callback_fails_only_without_data_witness :
  let mi := {| module_name := "sgpe"; module_data := None |} in
  let said := E_PRINT_ERROR "Yara rule imports the SGPE module, but no SGPE data was given!" in
  run (play matching_world)
    (@get_match_data yara_h 4 (to_module_import mi) (Some no_matches_yet)) tt
  = Some ((28, to_module_import mi, Some no_matches_yet), tt, [said])
  /\ ((28 = 28
       /\ (exists msg, [said] = [E_PRINT_ERROR msg])
       /\ to_module_import mi = to_module_import mi
       /\ (Some no_matches_yet = None
           \/ exists cb mi',
                Some no_matches_yet = Some cb /\ 4 = 4
                /\ to_module_import mi = to_module_import mi'
                /\ module_name mi' = "sgpe"%string /\ pe_info cb = None))
      \/ ((28 = 0 \/ 28 = 0) /\ Some no_matches_yet <> None
          /\ forall msg, ~ In (E_PRINT_ERROR msg) [said])).
Proof.
  intros mi said. split; [reflexivity|].
  exact (callback_fails_only_without_data (api := yara_h) (play matching_world)
           tt tt 4 28 (to_module_import mi) (to_module_import mi)
           (Some no_matches_yet) (Some no_matches_yet) [said] eq_refl).
Defined.

Lemma scan_accumulates_matched_rules_witness :
  let c := yr_rules_scan_file (Some 1%positive) "sample.exe" 2 0 in
  let cb := {| yara_matches := [ {| metadata := []; found_strings := ["old"] |} ];
               pe_info := Some 7%positive |} in
  let acc := {| yara_matches :=
                  ({| metadata := []; found_strings := ["old"] |} :: two_matches);
                pe_info := Some 7%positive |} in
  run (play matching_world) (s <- perform c ;; @conduct yara_h s cb) tt
  = Some ((0, acc), tt, [E_yr_rules_scan_file (Some 1%positive) "sample.exe" 2 0])
  /\ pe_info acc = pe_info cb
  /\ (exists (invocations : list (Z * message_data_t)) (added : list Match),
        @callbacks yara_h unit (play matching_world) (on_scan matching_world) cb tt
          invocations
        /\ yara_matches acc = (yara_matches cb ++ added)%list
        /\ Forall2 (fun rule m => Match_of_rule rule = Some m)
             (@matched_rules yara_h invocations) added)
  /\ (exists rest : list entry,
        [E_yr_rules_scan_file (Some 1%positive) "sample.exe" 2 0]
        = E_yr_rules_scan_file (Some 1%positive) "sample.exe" 2 0 :: rest
        /\ Forall is_diagnostic rest).
Proof.
  intros c cb acc. split; [reflexivity|].
  exact (scan_accumulates_matched_rules (api := yara_h) (play matching_world)
           c cb acc tt tt 0 [E_yr_rules_scan_file (Some 1%positive) "sample.exe" 2 0]
           eq_refl).
Defined.

Lemma successful_scan_returns_accumulated_matches_witness :
  let acc := {| yara_matches := two_matches; pe_info := None |} in
  _rules Yara_loaded <> None
  /\ [x68; x69] <> []
  /\ @engine_outcome yara_h unit (play matching_world)
       (yr_rules_scan_mem (Some 1%positive) [x68; x69] 2 2 0) no_matches_yet tt
     = Some (0, acc)
  /\ exists (w' : unit) (log : list entry),
       run (play matching_world) (@scan_bytes yara_h Yara_loaded [x68; x69]) tt
       = Some (two_matches, w',
               E_yr_rules_scan_mem (Some 1%positive) [x68; x69] 2 2 0 :: log)
       /\ Forall is_diagnostic log.
Proof.
  intro acc.
  assert (Hr : _rules Yara_loaded <> None) by discriminate.
  assert (Hb : [x68; x69] <> []) by discriminate.
  split; [exact Hr|]. split; [exact Hb|]. split; [reflexivity|].
  exact (proj1 (successful_scan_returns_accumulated_matches (api := yara_h)
                  (play matching_world) tt Yara_loaded Hr)
           [x68; x69] acc Hb eq_refl).
Defined.

Lemma scan_results_are_matched_rules_witness :
  run (play matching_world) (@scan_file yara_h Yara_loaded "sample.exe" None) tt
  = Some (two_matches, tt, [E_yr_rules_scan_file (Some 1%positive) "sample.exe" 2 0])
  /\ (two_matches = []
      \/ exists invocations : list (Z * message_data_t),
           @callbacks yara_h unit (play matching_world) (on_scan matching_world)
             no_matches_yet tt invocations
           /\ Forall2 (fun rule m => Match_of_rule rule = Some m)
                (@matched_rules yara_h invocations) two_matches).
Proof.
  split; [reflexivity|].
  exact (proj2 (scan_results_are_matched_rules (api := yara_h)
                  (play matching_world) tt tt Yara_loaded
                  [E_yr_rules_scan_file (Some 1%positive) "sample.exe" 2 0]
                  two_matches)
           "sample.exe"%string None eq_refl).
Defined.

Lemma rule_event_needs_string_metas_witness :
  (metas_have_strings rule_wide_hi = true
   /\ exists m : Match,
        run (play matching_world)
          (@get_match_data yara_h 1 (to_rule rule_wide_hi) (Some no_matches_yet)) tt
        = Some ((0, to_rule rule_wide_hi,
                 Some {| yara_matches := ([] ++ [m])%list; pe_info := None |}), tt, [])
        /\ Match_of_rule rule_wide_hi = Some m)
  /\ (metas_have_strings rule_with_integer_meta = false
      /\ run (play matching_world)
           (@get_match_data yara_h 1 (to_rule rule_with_integer_meta)
              (Some no_matches_yet)) tt
         = None
      /\ Match_of_rule rule_with_integer_meta = None).
Proof.
  split.
  - split; [reflexivity|].
    exact (proj1 (rule_event_needs_string_metas (api := yara_h) (play matching_world)
                    tt rule_wide_hi no_matches_yet) eq_refl).
  - split; [reflexivity|].
    exact (proj2 (rule_event_needs_string_metas (api := yara_h) (play matching_world)
                    tt rule_with_integer_meta no_matches_yet) eq_refl).
Defined.

Lemma engine_is_up_while_scanners_live_witness :
  let steps := [construct; construct; destroy Yara_new; destroy Yara_a;
                construct; destroy Yara_loaded] in
  0 <= 0
  /\ 0 + Z.of_nat (List.length steps) < 2 ^ 31
  /\ well_nested steps 0 = true
  /\ exists (n : Z) (calls : list global_call) (w' : unit) (log : list entry),
       run (play matching_world) (lifetimes steps 0) tt = Some ((n, calls), w', log)
       /\ n = 0 + live_change steps
       /\ 0 <= n < 2 ^ 31
       /\ alternate (0 <? 0) calls = true
       /\ engine_up (0 <? 0) calls = (0 <? n).
Proof.
  intro steps.
  assert (H0 : 0 <= 0) by lia.
  assert (Hb : 0 + Z.of_nat (List.length steps) < 2 ^ 31) by (cbn; lia).
  assert (Hw : well_nested steps 0 = true) by reflexivity.
  split; [exact H0|]. split; [exact Hb|]. split; [exact Hw|].
  exact (engine_is_up_while_scanners_live (play matching_world) steps 0 tt H0 Hb Hw).
Defined.

Example lifetimes_of_three_scanners :
  run (play matching_world)
    (lifetimes [construct; construct; destroy Yara_new; destroy Yara_a;
                construct; destroy Yara_loaded] 0) tt
  = Some ((0, [yr_initialize; yr_finalize; yr_initialize; yr_finalize]), tt,
          [E_yr_compiler_destroy (Some 2%positive); E_yr_rules_destroy (Some 4%positive);
           E_yr_rules_destroy (Some 1%positive)]).
Proof. reflexivity. Qed.
